(** * MCUboot single-image loader (boot/zephyr/single_loader.c)

    A shallow embedding of the translation unit [single_loader.c] and the
    properties of its three functions [boot_image_validate],
    [boot_image_validate_once] and [boot_go].

    The unit talks to the rest of the bootloader only through calls to
    functions that live in other files (flash map, image validation, swap
    state, SRAM loading, boot record).  Those calls are the interface of a
    platform; every call is threaded through an explicit world state and
    recorded, with its result, in a trace. *)

From Stdlib Require Import ZArith List Bool Lia.
Import ListNotations.
Local Open Scope Z_scope.

(** ** Data *)

(** [fih_ret]: the fault-injection-hardened return type; an [int]. *)
Definition fih_ret := Z.

(** [const struct flash_area *]: an address, [0] is [NULL]. *)
Definition flash_area_ptr := Z.

(** [struct image_header] is declared in [bootutil/image.h].  The only field
    this unit reads or writes is [ih_flags] (a [uint32_t]); the remaining
    fields are carried along untouched. *)
Record image_header := mk_image_header {
  ih_flags : Z;
  ih_rest : list Z
}.

(** [static struct image_header _hdr = { 0 };] *)
Definition hdr_zero : image_header := mk_image_header 0 [].

(** [struct boot_swap_state] (from [bootutil_public.h]); the two fields this
    unit inspects. *)
Record boot_swap_state := mk_boot_swap_state {
  magic : Z;
  image_ok : Z
}.

(** [memset(&state, 0, sizeof(struct boot_swap_state))] *)
Definition swap_state_zero : boot_swap_state := mk_boot_swap_state 0 0.

(** The value stored in [rsp->br_hdr]: either whatever the caller had there,
    or the address of the unit's static [_hdr]. *)
Inductive hdr_ptr :=
| PtrOther (addr : Z)
| PtrStaticHdr.

(** [struct boot_rsp] *)
Record boot_rsp := mk_boot_rsp {
  br_hdr : hdr_ptr;
  br_flash_dev_id : Z;
  br_image_off : Z
}.

(** The argument of [boot_load_image_to_sram] / [boot_remove_image_from_sram]:
    the function-local [static struct boot_loader_state state] after
    [BOOT_IMG_AREA(&state, 0) = _fa_p; state.imgs[0][0].hdr = _hdr;]. *)
Record boot_loader_state := mk_boot_loader_state {
  img_area : flash_area_ptr;
  img_hdr : image_header
}.

(** Conditional compilation.  Each field is one preprocessor symbol the unit
    tests; [NDEBUG] decides whether [assert] expands to a check or to
    nothing. *)
Record build_config := mk_build_config {
  MCUBOOT_VALIDATE_PRIMARY_SLOT : bool;
  MCUBOOT_VALIDATE_PRIMARY_SLOT_ONCE : bool;
  MCUBOOT_RAM_LOAD : bool;
  MCUBOOT_MEASURED_BOOT : bool;
  MCUBOOT_DATA_SHARING : bool;
  NDEBUG : bool
}.

(** ** The trace of calls leaving the unit *)

Inductive event :=
| EvFlashAreaOpen (id : Z) (rc : Z)
| EvLoadHeader (fa : flash_area_ptr) (rc : Z)
| EvLoadImageToSram (rc : Z)
| EvRemoveImageFromSram
| EvImgValidate (hdr : image_header) (fa : flash_area_ptr) (res : fih_ret)
| EvReadSwapState (fa : flash_area_ptr) (rc : Z) (st : boot_swap_state)
| EvWriteMagic (fa : flash_area_ptr) (rc : Z)
| EvWriteImageOk (fa : flash_area_ptr) (rc : Z)
| EvSaveBootStatus (rc : Z)
| EvSaveSharedData (rc : Z)
| EvFlashAreaClose (fa : flash_area_ptr).

Definition is_close (e : event) : bool :=
  match e with EvFlashAreaClose _ => true | _ => false end.

Definition is_img_validate (e : event) : bool :=
  match e with EvImgValidate _ _ _ => true | _ => false end.

Definition is_trust_write (e : event) : bool :=
  match e with EvWriteMagic _ _ | EvWriteImageOk _ _ => true | _ => false end.

Definition is_write_magic (e : event) : bool :=
  match e with EvWriteMagic _ _ => true | _ => false end.

Definition is_remove_sram (e : event) : bool :=
  match e with EvRemoveImageFromSram => true | _ => false end.



Definition count (p : event -> bool) (l : list event) : nat :=
  length (filter p l).

Definition absent (p : event -> bool) (l : list event) : Prop :=
  forallb (fun e => negb (p e)) l = true.

(** ** What the included headers provide *)

(** Macros of [fault_injection_hardening.h], [bootutil_public.h],
    [image.h] and [sysflash.h], which are not part of this unit. *)
Class Headers := {
  FIH_SUCCESS : fih_ret;
  FIH_FAILURE : fih_ret;
  BOOT_MAGIC_GOOD : Z;
  BOOT_FLAG_SET : Z;
  ENCRYPTIONFLAGS : Z;
  IS_ENCRYPTED : image_header -> bool;
  FLASH_AREA_IMAGE_PRIMARY : Z -> Z
}.

(** Functions defined in other translation units.  An out-parameter is a
    pair of the old content (argument) and the new content (result). *)
Class Collaborators (World : Type) := {
  flash_area_open :
    Z -> flash_area_ptr -> World -> (Z * flash_area_ptr) * World;
  flash_area_close : flash_area_ptr -> World -> World;
  flash_area_get_device_id : flash_area_ptr -> World -> Z;
  flash_area_get_off : flash_area_ptr -> World -> Z;
  boot_image_load_header :
    flash_area_ptr -> image_header -> World -> (Z * image_header) * World;
  bootutil_img_validate :
    image_header -> flash_area_ptr -> World -> fih_ret * World;
  boot_read_swap_state :
    flash_area_ptr -> boot_swap_state -> World -> (Z * boot_swap_state) * World;
  boot_write_magic : flash_area_ptr -> World -> Z * World;
  boot_write_image_ok : flash_area_ptr -> World -> Z * World;
  boot_load_image_to_sram : boot_loader_state -> World -> Z * World;
  boot_remove_image_from_sram : boot_loader_state -> World -> World;
  boot_save_boot_status :
    Z -> image_header -> flash_area_ptr -> World -> Z * World;
  boot_save_shared_data :
    image_header -> flash_area_ptr -> Z -> World -> Z * World
}.

(** ** Machine state and the call monad *)

(** The world outside the unit, the calls made so far (oldest first), and
    the unit's two file-scope statics. *)
Record machine (World : Type) := mk_machine {
  world : World;
  trace : list event;
  _fa_p : flash_area_ptr;
  _hdr : image_header
}.
Arguments mk_machine {World}.
Arguments world {World}.
Arguments trace {World}.
Arguments _fa_p {World}.
Arguments _hdr {World}.

Definition M (World A : Type) := machine World -> A * machine World.

Definition ret {World A} (a : A) : M World A := fun m => (a, m).

Definition bind {World A B} (c : M World A) (k : A -> M World B) : M World B :=
  fun m => let '(a, m') := c m in k a m'.

Notation "x <- c ;; k" := (bind c (fun x => k))
  (at level 61, c at next level, right associativity).
Notation "' p <- c ;; k" := (bind c (fun p => k))
  (at level 61, p pattern, c at next level, right associativity).

(** A call that returns a value: run it on the world, log it. *)
Definition call {World A} (f : World -> A * World) (ev : A -> event)
  : M World A :=
  fun m =>
    let '(a, w) := f (world m) in
    (a, mk_machine w (trace m ++ [ev a]) (_fa_p m) (_hdr m)).

(** A [void] call. *)
Definition call_void {World} (f : World -> World) (ev : event)
  : M World unit :=
  fun m => (tt, mk_machine (f (world m)) (trace m ++ [ev]) (_fa_p m) (_hdr m)).

Definition set_fa_p {World} (p : flash_area_ptr) : M World unit :=
  fun m => (tt, mk_machine (world m) (trace m) p (_hdr m)).

Definition set_hdr {World} (h : image_header) : M World unit :=
  fun m => (tt, mk_machine (world m) (trace m) (_fa_p m) h).

Definition get {World} : M World (machine World) := fun m => (m, m).

(** [FIH_NOT_EQ(x, y)] is [x != y]. *)
Definition FIH_NOT_EQ (x y : fih_ret) : bool := negb (x =? y).

(** [hdr->ih_flags &= ~(ENCRYPTIONFLAGS)] on a [uint32_t] field: the
    complement of the [int] constant is converted to 32 bits unsigned. *)
Definition clear_flags (flags mask : Z) : Z :=
  Z.land flags (Z.lnot mask mod 2 ^ 32).

Definition with_flags (h : image_header) (f : Z) : image_header :=
  mk_image_header f (ih_rest h).

Section SingleLoader.

Context {World : Type} {HD : Headers} {CO : Collaborators World}.

(** *** [boot_image_validate] (lines 40-68) *)

Definition boot_image_validate (fa_p : flash_area_ptr) (hdr : image_header)
  : M World (fih_ret * image_header) :=
  let hdr :=
    if IS_ENCRYPTED hdr
    then with_flags hdr (clear_flags (ih_flags hdr) ENCRYPTIONFLAGS)
    else hdr in
  fih_rc <- call (bootutil_img_validate hdr fa_p) (EvImgValidate hdr fa_p) ;;
  ret (fih_rc, hdr).

(** *** [boot_image_validate_once] (lines 72-103) *)

Definition boot_image_validate_once (fa_p : flash_area_ptr) (hdr : image_header)
  : M World (fih_ret * image_header) :=
  '(rc, state) <- call (boot_read_swap_state fa_p swap_state_zero)
                       (fun r => EvReadSwapState fa_p (fst r) (snd r)) ;;
  if negb (rc =? 0) then ret (FIH_FAILURE, hdr)
  else if negb (magic state =? BOOT_MAGIC_GOOD)
          || negb (image_ok state =? BOOT_FLAG_SET) then
    (* At least validate the image once *)
    '(fih_rc, hdr) <- boot_image_validate fa_p hdr ;;
    if FIH_NOT_EQ fih_rc FIH_SUCCESS then ret (FIH_FAILURE, hdr)
    else
      let write_image_ok :=
        rc <- call (boot_write_image_ok fa_p) (EvWriteImageOk fa_p) ;;
        if negb (rc =? 0) then ret (FIH_FAILURE, hdr)
        else ret (FIH_SUCCESS, hdr) in
      if negb (magic state =? BOOT_MAGIC_GOOD) then
        rc <- call (boot_write_magic fa_p) (EvWriteMagic fa_p) ;;
        if negb (rc =? 0) then ret (FIH_FAILURE, hdr)
        else write_image_ok
      else write_image_ok
  else ret (FIH_SUCCESS, hdr).

(** *** [boot_go] (lines 113-182) *)

(** How a call of [boot_go] ends: it returns a value, or a failed [assert]
    stops the program before it returns. *)
Inductive outcome :=
| Returned (v : fih_ret)
| AssertFailed.

Variable cfg : build_config.

(** [out: flash_area_close(_fa_p); FIH_RET(fih_rc);] (lines 178-181) *)
Definition boot_go_out (fih_rc : fih_ret) (rsp : boot_rsp)
  : M World (outcome * boot_rsp) :=
  m <- get ;;
  _ <- call_void (flash_area_close (_fa_p m)) (EvFlashAreaClose (_fa_p m)) ;;
  ret (Returned fih_rc, rsp).

(** Lines 174-176, then falling into [out]. *)
Definition boot_go_response (fih_rc : fih_ret) (rsp : boot_rsp)
  : M World (outcome * boot_rsp) :=
  m <- get ;;
  let rsp := mk_boot_rsp (br_hdr rsp)
               (flash_area_get_device_id (_fa_p m) (world m))
               (br_image_off rsp) in
  let rsp := mk_boot_rsp (br_hdr rsp) (br_flash_dev_id rsp)
               (flash_area_get_off (_fa_p m) (world m)) in
  let rsp := mk_boot_rsp PtrStaticHdr (br_flash_dev_id rsp)
               (br_image_off rsp) in
  boot_go_out fih_rc rsp.

(** [#ifdef MCUBOOT_DATA_SHARING] (lines 166-172) *)
Definition boot_go_share (fih_rc : fih_ret) (rsp : boot_rsp)
  : M World (outcome * boot_rsp) :=
  if MCUBOOT_DATA_SHARING cfg then
    m <- get ;;
    rc <- call (boot_save_shared_data (_hdr m) (_fa_p m) 0) EvSaveSharedData ;;
    if negb (rc =? 0) then ret (Returned rc, rsp)
    else boot_go_response fih_rc rsp
  else boot_go_response fih_rc rsp.

(** [#ifdef MCUBOOT_MEASURED_BOOT] (lines 158-164) *)
Definition boot_go_measure (fih_rc : fih_ret) (rsp : boot_rsp)
  : M World (outcome * boot_rsp) :=
  if MCUBOOT_MEASURED_BOOT cfg then
    m <- get ;;
    rc <- call (boot_save_boot_status 0 (_hdr m) (_fa_p m)) EvSaveBootStatus ;;
    if negb (rc =? 0) then ret (Returned rc, rsp)
    else boot_go_share fih_rc rsp
  else boot_go_share fih_rc rsp.

(** The failure branch of the validation blocks (lines 140-145, 148-153). *)
Definition boot_go_rejected (state : boot_loader_state) (fih_rc : fih_ret)
  (rsp : boot_rsp) : M World (outcome * boot_rsp) :=
  if MCUBOOT_RAM_LOAD cfg then
    _ <- call_void (boot_remove_image_from_sram state) EvRemoveImageFromSram ;;
    boot_go_out fih_rc rsp
  else boot_go_out fih_rc rsp.

(** [#ifdef MCUBOOT_VALIDATE_PRIMARY_SLOT ... #elif ... #else ... #endif]
    (lines 138-156) *)
Definition boot_go_authenticate (state : boot_loader_state) (rsp : boot_rsp)
  : M World (outcome * boot_rsp) :=
  if MCUBOOT_VALIDATE_PRIMARY_SLOT cfg then
    m <- get ;;
    '(fih_rc, h) <- boot_image_validate (_fa_p m) (_hdr m) ;;
    _ <- set_hdr h ;;
    if FIH_NOT_EQ fih_rc FIH_SUCCESS then boot_go_rejected state fih_rc rsp
    else boot_go_measure fih_rc rsp
  else if MCUBOOT_VALIDATE_PRIMARY_SLOT_ONCE cfg then
    m <- get ;;
    '(fih_rc, h) <- boot_image_validate_once (_fa_p m) (_hdr m) ;;
    _ <- set_hdr h ;;
    if FIH_NOT_EQ fih_rc FIH_SUCCESS then boot_go_rejected state fih_rc rsp
    else boot_go_measure fih_rc rsp
  else boot_go_measure FIH_SUCCESS rsp.

(** [#ifdef MCUBOOT_RAM_LOAD] (lines 128-136) *)
Definition boot_go_stage (rsp : boot_rsp) : M World (outcome * boot_rsp) :=
  m <- get ;;
  let state := mk_boot_loader_state (_fa_p m) (_hdr m) in
  if MCUBOOT_RAM_LOAD cfg then
    rc <- call (boot_load_image_to_sram state) EvLoadImageToSram ;;
    if negb (rc =? 0) then boot_go_out FIH_FAILURE rsp
    else boot_go_authenticate state rsp
  else boot_go_authenticate state rsp.

Definition boot_go (rsp : boot_rsp) : M World (outcome * boot_rsp) :=
  m <- get ;;
  '(rc, p) <- call (flash_area_open (FLASH_AREA_IMAGE_PRIMARY 0) (_fa_p m))
                   (fun r => EvFlashAreaOpen (FLASH_AREA_IMAGE_PRIMARY 0) (fst r)) ;;
  _ <- set_fa_p p ;;
  (* assert(rc == 0); *)
  if negb (NDEBUG cfg) && negb (rc =? 0) then ret (AssertFailed, rsp)
  else
    m <- get ;;
    '(rc, h) <- call (boot_image_load_header (_fa_p m) (_hdr m))
                     (fun r => EvLoadHeader (_fa_p m) (fst r)) ;;
    _ <- set_hdr h ;;
    if negb (rc =? 0) then boot_go_out FIH_FAILURE rsp
    else boot_go_stage rsp.

End SingleLoader.

Arguments boot_go {World HD CO} cfg rsp m.

(** ** Derived notions used in the statements *)

(** The calls made between two machine states. *)
Definition since {World} (m m' : machine World) : list event :=
  skipn (length (trace m)) (trace m').

(** The header as [boot_image_validate] hands it to the validator. *)
Definition header_as_validated {HD : Headers} (hdr : image_header)
  : image_header :=
  if IS_ENCRYPTED hdr
  then with_flags hdr (clear_flags (ih_flags hdr) ENCRYPTIONFLAGS)
  else hdr.

(** What lines 174-176 store through [rsp] for region [fa] in world [w]. *)
Definition response_for {World} {CO : Collaborators World}
  (fa : flash_area_ptr) (w : World) : boot_rsp :=
  mk_boot_rsp PtrStaticHdr (flash_area_get_device_id fa w)
              (flash_area_get_off fa w).

(** The return code carried by a measured-boot or shared-data call. *)
Definition evidence_rc (e : event) : option Z :=
  match e with
  | EvSaveBootStatus rc | EvSaveSharedData rc => Some rc
  | _ => None
  end.

Definition is_evidence (e : event) : bool :=
  match evidence_rc e with Some _ => true | None => false end.

(** The first evidence-recording call that failed, with what followed it. *)
Fixpoint first_evidence_failure (l : list event) : option (Z * list event) :=
  match l with
  | [] => None
  | e :: l' =>
      match evidence_rc e with
      | Some rc => if rc =? 0 then first_evidence_failure l' else Some (rc, l')
      | None => first_evidence_failure l'
      end
  end.

(** The part of a trace that starts at its first evidence-recording call. *)
Fixpoint from_first_evidence (l : list event) : list event :=
  match l with
  | [] => []
  | e :: l' => if is_evidence e then l else from_first_evidence l'
  end.

(** The machine after the read and the validation of an unverified record. *)
Definition after_validation {World} {HD : Headers} {CO : Collaborators World}
  (m : machine World) (fa : flash_area_ptr) (hdr : image_header)
  (st : boot_swap_state) (w1 : World) : machine World :=
  let h := header_as_validated hdr in
  mk_machine (snd (bootutil_img_validate h fa w1))
    (trace m ++ [EvReadSwapState fa 0 st;
                 EvImgValidate h fa (fst (bootutil_img_validate h fa w1))])
    (_fa_p m) (_hdr m).

(** State Unverified of the trust record as read. *)
Definition unverified {HD : Headers} (st : boot_swap_state) : Prop :=
  magic st <> BOOT_MAGIC_GOOD \/ image_ok st <> BOOT_FLAG_SET.

(** Modelled from the spec: the Trust State Store interface (section 4.2),
    whose code is outside this unit, as the contract the unit expects of
    [boot_read_swap_state], [boot_write_magic] and [boot_write_image_ok].
    [stored fa w] is the record persisted for region [fa] in world [w]; a
    successful read reports it, a write touches only its own field (the
    per-field granularity of section 4.2) and sets it when it succeeds, and
    image validation leaves the record alone. *)
Record trust_store_contract {World} {HD : Headers} {CO : Collaborators World}
  (stored : flash_area_ptr -> World -> boot_swap_state) : Prop := {
  read_reports : forall fa st0 w st w',
    boot_read_swap_state fa st0 w = ((0, st), w') ->
    magic st = magic (stored fa w) /\ image_ok st = image_ok (stored fa w);
  read_keeps : forall fa st0 w r w',
    boot_read_swap_state fa st0 w = (r, w') -> stored fa w' = stored fa w;
  validate_keeps : forall hdr fa w r w',
    bootutil_img_validate hdr fa w = (r, w') -> stored fa w' = stored fa w;
  write_magic_field : forall fa w rc w',
    boot_write_magic fa w = (rc, w') ->
    image_ok (stored fa w') = image_ok (stored fa w) /\
    (rc = 0 \/ magic (stored fa w) = BOOT_MAGIC_GOOD ->
     magic (stored fa w') = BOOT_MAGIC_GOOD);
  write_image_ok_field : forall fa w rc w',
    boot_write_image_ok fa w = (rc, w') ->
    magic (stored fa w') = magic (stored fa w) /\
    (rc = 0 \/ image_ok (stored fa w) = BOOT_FLAG_SET ->
     image_ok (stored fa w') = BOOT_FLAG_SET)
}.

(** *** The shape of a run of [boot_go]

    Every run of [boot_go] makes its calls in one of four patterns.  The
    calls up to the end of the validation step are the setup; they are
    followed by the evidence-recording calls and the closing of the
    region. *)

(** Calls that are neither evidence recording nor the closing of the
    region. *)
Definition quiet (l : list event) : Prop :=
  forallb (fun e => negb (is_evidence e) && negb (is_close e)) l = true.

(** Evidence-recording calls that all returned 0. *)
Definition all_recorded (l : list event) : Prop :=
  forallb (fun e => match evidence_rc e with
                    | Some rc => rc =? 0
                    | None => false
                    end) l = true.

(** A call that may precede the validation step. *)
Definition plain (e : event) : bool :=
  negb (is_evidence e) && negb (is_close e) && negb (is_remove_sram e)
  && negb (is_img_validate e).

(** A setup: quiet, no staged image removed, validator called at most once. *)
Definition setup (l : list event) : Prop :=
  quiet l /\ absent is_remove_sram l /\ (count is_img_validate l <= 1)%nat.

(** What follows a validation step that let the image through: evidence is
    recorded, the response is filled in and the region closed; or an
    evidence-recording call fails and its return code is returned. *)
Inductive evidence_tail {World} {CO : Collaborators World}
  (fih_rc : fih_ret) (rsp : boot_rsp) (fa : flash_area_ptr)
  : list event -> outcome -> boot_rsp -> Prop :=
| tail_booted oks w :
    all_recorded oks ->
    evidence_tail fih_rc rsp fa (oks ++ [EvFlashAreaClose fa])
                  (Returned fih_rc) (response_for fa w)
| tail_failed oks e rc :
    all_recorded oks -> evidence_rc e = Some rc -> rc <> 0 ->
    evidence_tail fih_rc rsp fa (oks ++ [e]) (Returned rc) rsp.

Inductive boot_go_run {World} {HD : Headers} {CO : Collaborators World}
  (rsp : boot_rsp) : list event -> outcome -> boot_rsp -> Prop :=
| run_asserted id rc :
    rc <> 0 ->
    boot_go_run rsp [EvFlashAreaOpen id rc] AssertFailed rsp
| run_rejected pre fa v :
    quiet pre -> (count is_img_validate pre <= 1)%nat ->
    v <> FIH_SUCCESS \/ v = FIH_FAILURE ->
    boot_go_run rsp (pre ++ [EvFlashAreaClose fa]) (Returned v) rsp
| run_passed pre fa tl out rsp' :
    setup pre ->
    evidence_tail FIH_SUCCESS rsp fa tl out rsp' ->
    boot_go_run rsp (pre ++ tl) out rsp'.

(** *** The paths through the unit

    A finer description of a run than [boot_go_run]: the exact calls of
    each path through [boot_image_validate_once] and [boot_go], with the
    return codes that select the path. *)

Definition is_open (e : event) : bool :=
  match e with EvFlashAreaOpen _ _ => true | _ => false end.

Definition is_trust_read (e : event) : bool :=
  match e with EvReadSwapState _ _ _ => true | _ => false end.

Definition is_write_image_ok (e : event) : bool :=
  match e with EvWriteImageOk _ _ => true | _ => false end.

(** A call on the trust state store. *)
Definition is_trust_access (e : event) : bool :=
  is_trust_read e || is_trust_write e.

(** A call that reported an error: a nonzero return code, or a validator
    result other than [FIH_SUCCESS]. *)
Definition failed_call {HD : Headers} (e : event) : bool :=
  match e with
  | EvFlashAreaOpen _ rc | EvLoadHeader _ rc | EvLoadImageToSram rc
  | EvReadSwapState _ rc _ | EvWriteMagic _ rc | EvWriteImageOk _ rc
  | EvSaveBootStatus rc | EvSaveSharedData rc => negb (rc =? 0)
  | EvImgValidate _ _ res => FIH_NOT_EQ res FIH_SUCCESS
  | EvRemoveImageFromSram | EvFlashAreaClose _ => false
  end.

(** The region a call is made on, for the calls that take [fa_p]. *)
Definition region_of (e : event) : option flash_area_ptr :=
  match e with
  | EvLoadHeader fa _ | EvImgValidate _ fa _ | EvReadSwapState fa _ _
  | EvWriteMagic fa _ | EvWriteImageOk fa _ | EvFlashAreaClose fa => Some fa
  | _ => None
  end.

(** The position of a call in the text of [boot_go], with the calls of
    [boot_image_validate_once] and [boot_image_validate] at the place where
    they are called (the removal of the staged image, lines 142 and 150,
    sits in the failure branch that follows them). *)
Definition call_rank (e : event) : nat :=
  match e with
  | EvFlashAreaOpen _ _ => 0
  | EvLoadHeader _ _ => 1
  | EvLoadImageToSram _ => 2
  | EvReadSwapState _ _ _ => 3
  | EvImgValidate _ _ _ => 4
  | EvWriteMagic _ _ => 5
  | EvWriteImageOk _ _ => 6
  | EvRemoveImageFromSram => 7
  | EvSaveBootStatus _ => 8
  | EvSaveSharedData _ => 9
  | EvFlashAreaClose _ => 10
  end%nat.

(** Strictly increasing. *)
Fixpoint ascending (l : list nat) : bool :=
  match l with
  | a :: (b :: _) as t => (a <? b)%nat && ascending t
  | _ => true
  end.

(** The magic write of line 94, when it is made and succeeds. *)
Definition magic_write {HD : Headers} (fa : flash_area_ptr)
  (st : boot_swap_state) : list event :=
  if magic st =? BOOT_MAGIC_GOOD then [] else [EvWriteMagic fa 0].

(** The paths through [boot_image_validate_once]: calls, result, header. *)
Inductive once_path {HD : Headers} (fa : flash_area_ptr) (hdr : image_header)
  : list event -> fih_ret -> image_header -> Prop :=
| once_read_error rc st :
    rc <> 0 ->
    once_path fa hdr [EvReadSwapState fa rc st] FIH_FAILURE hdr
| once_trusted st :
    magic st = BOOT_MAGIC_GOOD -> image_ok st = BOOT_FLAG_SET ->
    once_path fa hdr [EvReadSwapState fa 0 st] FIH_SUCCESS hdr
| once_rejected st res :
    unverified st -> res <> FIH_SUCCESS ->
    once_path fa hdr
      [EvReadSwapState fa 0 st;
       EvImgValidate (header_as_validated hdr) fa res]
      FIH_FAILURE (header_as_validated hdr)
| once_magic_failed st rc :
    magic st <> BOOT_MAGIC_GOOD -> rc <> 0 ->
    once_path fa hdr
      [EvReadSwapState fa 0 st;
       EvImgValidate (header_as_validated hdr) fa FIH_SUCCESS;
       EvWriteMagic fa rc]
      FIH_FAILURE (header_as_validated hdr)
| once_image_ok_failed st rc :
    unverified st -> rc <> 0 ->
    once_path fa hdr
      ([EvReadSwapState fa 0 st;
        EvImgValidate (header_as_validated hdr) fa FIH_SUCCESS]
       ++ magic_write fa st ++ [EvWriteImageOk fa rc])
      FIH_FAILURE (header_as_validated hdr)
| once_recorded st :
    unverified st ->
    once_path fa hdr
      ([EvReadSwapState fa 0 st;
        EvImgValidate (header_as_validated hdr) fa FIH_SUCCESS]
       ++ magic_write fa st ++ [EvWriteImageOk fa 0])
      FIH_SUCCESS (header_as_validated hdr).

(** The validation step of [boot_go] (lines 138-156): calls and [fih_rc]. *)
Inductive auth_path {HD : Headers} (cfg : build_config)
  (fa : flash_area_ptr) (hdr : image_header) : list event -> fih_ret -> Prop :=
| auth_always res :
    MCUBOOT_VALIDATE_PRIMARY_SLOT cfg = true ->
    auth_path cfg fa hdr [EvImgValidate (header_as_validated hdr) fa res] res
| auth_once evs res h :
    MCUBOOT_VALIDATE_PRIMARY_SLOT cfg = false ->
    MCUBOOT_VALIDATE_PRIMARY_SLOT_ONCE cfg = true ->
    once_path fa hdr evs res h ->
    auth_path cfg fa hdr evs res
| auth_skip :
    MCUBOOT_VALIDATE_PRIMARY_SLOT cfg = false ->
    MCUBOOT_VALIDATE_PRIMARY_SLOT_ONCE cfg = false ->
    auth_path cfg fa hdr [] FIH_SUCCESS.

Definition stage_calls (cfg : build_config) : list event :=
  if MCUBOOT_RAM_LOAD cfg then [EvLoadImageToSram 0] else [].

Definition unstage_calls (cfg : build_config) : list event :=
  if MCUBOOT_RAM_LOAD cfg then [EvRemoveImageFromSram] else [].

Definition status_calls (cfg : build_config) : list event :=
  if MCUBOOT_MEASURED_BOOT cfg then [EvSaveBootStatus 0] else [].

Definition shared_calls (cfg : build_config) : list event :=
  if MCUBOOT_DATA_SHARING cfg then [EvSaveSharedData 0] else [].

(** Lines 158-181: calls, outcome and response. *)
Inductive evidence_path {World} {CO : Collaborators World}
  (cfg : build_config) (fih_rc : fih_ret) (rsp : boot_rsp)
  (fa : flash_area_ptr) : list event -> outcome -> boot_rsp -> Prop :=
| ev_recorded w :
    evidence_path cfg fih_rc rsp fa
      (status_calls cfg ++ shared_calls cfg ++ [EvFlashAreaClose fa])
      (Returned fih_rc) (response_for fa w)
| ev_status_failed rc :
    MCUBOOT_MEASURED_BOOT cfg = true -> rc <> 0 ->
    evidence_path cfg fih_rc rsp fa [EvSaveBootStatus rc] (Returned rc) rsp
| ev_shared_failed rc :
    MCUBOOT_DATA_SHARING cfg = true -> rc <> 0 ->
    evidence_path cfg fih_rc rsp fa
      (status_calls cfg ++ [EvSaveSharedData rc]) (Returned rc) rsp.

(** The paths through [boot_go], for the return code [rc] and the pointer
    [p] that [flash_area_open] produced. *)
Inductive boot_go_path {World} {HD : Headers} {CO : Collaborators World}
  (cfg : build_config) (rsp : boot_rsp) (rc : Z) (p : flash_area_ptr)
  : list event -> outcome -> boot_rsp -> Prop :=
| path_assert :
    NDEBUG cfg = false -> rc <> 0 ->
    boot_go_path cfg rsp rc p
      [EvFlashAreaOpen (FLASH_AREA_IMAGE_PRIMARY 0) rc] AssertFailed rsp
| path_header rc2 :
    NDEBUG cfg = true \/ rc = 0 -> rc2 <> 0 ->
    boot_go_path cfg rsp rc p
      [EvFlashAreaOpen (FLASH_AREA_IMAGE_PRIMARY 0) rc; EvLoadHeader p rc2;
       EvFlashAreaClose p]
      (Returned FIH_FAILURE) rsp
| path_stage rc3 :
    NDEBUG cfg = true \/ rc = 0 ->
    MCUBOOT_RAM_LOAD cfg = true -> rc3 <> 0 ->
    boot_go_path cfg rsp rc p
      [EvFlashAreaOpen (FLASH_AREA_IMAGE_PRIMARY 0) rc; EvLoadHeader p 0;
       EvLoadImageToSram rc3; EvFlashAreaClose p]
      (Returned FIH_FAILURE) rsp
| path_rejected hdr a v :
    NDEBUG cfg = true \/ rc = 0 ->
    auth_path cfg p hdr a v -> v <> FIH_SUCCESS ->
    boot_go_path cfg rsp rc p
      ([EvFlashAreaOpen (FLASH_AREA_IMAGE_PRIMARY 0) rc; EvLoadHeader p 0]
       ++ stage_calls cfg ++ a ++ unstage_calls cfg ++ [EvFlashAreaClose p])
      (Returned v) rsp
| path_passed hdr a v tl out rsp' :
    NDEBUG cfg = true \/ rc = 0 ->
    auth_path cfg p hdr a v -> v = FIH_SUCCESS ->
    evidence_path cfg v rsp p tl out rsp' ->
    boot_go_path cfg rsp rc p
      ([EvFlashAreaOpen (FLASH_AREA_IMAGE_PRIMARY 0) rc; EvLoadHeader p 0]
       ++ stage_calls cfg ++ a ++ tl)
      out rsp'.

(** What the validation step and everything after it do, from a machine
    whose statics are [_fa_p m] and [_hdr m]. *)
Definition continues {World} {HD : Headers} {CO : Collaborators World}
  (cfg : build_config) (rsp : boot_rsp) (m : machine World)
  (r : (outcome * boot_rsp) * machine World) : Prop :=
  exists a v rest,
    auth_path cfg (_fa_p m) (_hdr m) a v /\
    trace (snd r) = trace m ++ a ++ rest /\
    _fa_p (snd r) = _fa_p m /\
    ((v <> FIH_SUCCESS /\
      rest = unstage_calls cfg ++ [EvFlashAreaClose (_fa_p m)] /\
      fst r = (Returned v, rsp))
     \/
     (v = FIH_SUCCESS /\
      evidence_path cfg v rsp (_fa_p m) rest (fst (fst r)) (snd (fst r)))).

(** How a run ends, seen from its caller: some call reported an error and
    the response is as the caller supplied it; or [FIH_SUCCESS] is returned
    and the response holds what [flash_area_get_device_id] and
    [flash_area_get_off] answer in the world [w] in which the region is
    then closed (lines 174-179). *)
Definition attempt_result {World} {HD : Headers} {CO : Collaborators World}
  (rsp : boot_rsp) (evs : list event)
  (r : (outcome * boot_rsp) * machine World) : Prop :=
  (snd (fst r) = rsp /\ exists e, In e evs /\ failed_call e = true)
  \/
  (fst (fst r) = Returned FIH_SUCCESS /\
   exists w,
     world (snd r) = flash_area_close (_fa_p (snd r)) w /\
     snd (fst r) = response_for (_fa_p (snd r)) w).

(** ** A reference platform

    A small deterministic board on which the unit can be run: the return
    code of every collaborator is scripted in the world, and the trust state
    store keeps one record. *)

(** Modelled from the spec: the macros of the headers this unit includes,
    with a non-trivial success sentinel (section 4.3).  The numbers are the
    ones MCUboot uses when fault-injection hardening is enabled. *)
Definition mcuboot_headers : Headers := {|
  FIH_SUCCESS := 0x1AAAAAAA;
  FIH_FAILURE := 0x15555555;
  BOOT_MAGIC_GOOD := 1;
  BOOT_FLAG_SET := 1;
  ENCRYPTIONFLAGS := 0xC;
  IS_ENCRYPTED := fun h => negb (Z.land (ih_flags h) 0xC =? 0);
  FLASH_AREA_IMAGE_PRIMARY := fun _ => 1
|}.

Record board := mk_board {
  bd_trust : boot_swap_state;
  bd_flash_hdr : image_header;
  bd_staged : bool;
  bd_open_rc : Z;
  bd_load_rc : Z;
  bd_sram_rc : Z;
  bd_verdict : image_header -> fih_ret;
  bd_read_rc : Z;
  bd_write_magic_rc : Z;
  bd_write_image_ok_rc : Z;
  bd_status_rc : Z;
  bd_shared_rc : Z
}.

Definition board_with_trust (b : board) (t : boot_swap_state) : board :=
  mk_board t (bd_flash_hdr b) (bd_staged b) (bd_open_rc b) (bd_load_rc b)
           (bd_sram_rc b) (bd_verdict b) (bd_read_rc b) (bd_write_magic_rc b)
           (bd_write_image_ok_rc b) (bd_status_rc b) (bd_shared_rc b).

Definition board_with_staged (b : board) (s : bool) : board :=
  mk_board (bd_trust b) (bd_flash_hdr b) s (bd_open_rc b) (bd_load_rc b)
           (bd_sram_rc b) (bd_verdict b) (bd_read_rc b) (bd_write_magic_rc b)
           (bd_write_image_ok_rc b) (bd_status_rc b) (bd_shared_rc b).

(** Modelled from the spec: the collaborators of sections 4.2 and 6 (region
    accessor, cryptographic validator, trust state store, staging,
    measured boot, shared data), whose code is outside this unit.  The trust
    state store follows section 4.2: [read_state] returns the record or an
    I/O error, [write_magic] and [write_image_ok] set their field or fail
    with an I/O error and leave the record as it was. *)
Definition board_collaborators : Collaborators board := {|
  flash_area_open := fun _ old b =>
    ((bd_open_rc b, if bd_open_rc b =? 0 then 0x8000 else old), b);
  flash_area_close := fun _ b => b;
  flash_area_get_device_id := fun _ _ => 3;
  flash_area_get_off := fun _ _ => 0xC000;
  boot_image_load_header := fun _ old b =>
    ((bd_load_rc b, if bd_load_rc b =? 0 then bd_flash_hdr b else old), b);
  bootutil_img_validate := fun h _ b => (bd_verdict b h, b);
  boot_read_swap_state := fun _ old b =>
    ((bd_read_rc b, if bd_read_rc b =? 0 then bd_trust b else old), b);
  boot_write_magic := fun _ b =>
    (bd_write_magic_rc b,
     if bd_write_magic_rc b =? 0
     then board_with_trust b (mk_boot_swap_state 1 (image_ok (bd_trust b)))
     else b);
  boot_write_image_ok := fun _ b =>
    (bd_write_image_ok_rc b,
     if bd_write_image_ok_rc b =? 0
     then board_with_trust b (mk_boot_swap_state (magic (bd_trust b)) 1)
     else b);
  boot_load_image_to_sram := fun _ b =>
    (bd_sram_rc b, board_with_staged b (bd_sram_rc b =? 0));
  boot_remove_image_from_sram := fun _ b => board_with_staged b false;
  boot_save_boot_status := fun _ _ _ b => (bd_status_rc b, b);
  boot_save_shared_data := fun _ _ _ b => (bd_shared_rc b, b)
|}.

(** A freshly provisioned board: nothing in the trust record, a plain
    header in flash, every collaborator succeeding and the validator
    accepting every header. *)
Definition fresh_board : board := {|
  bd_trust := mk_boot_swap_state 3 3;
  bd_flash_hdr := mk_image_header 0 [];
  bd_staged := false;
  bd_open_rc := 0;
  bd_load_rc := 0;
  bd_sram_rc := 0;
  bd_verdict := fun _ => 0x1AAAAAAA;
  bd_read_rc := 0;
  bd_write_magic_rc := 0;
  bd_write_image_ok_rc := 0;
  bd_status_rc := 0;
  bd_shared_rc := 0
|}.

Definition board_with_flash_hdr (b : board) (h : image_header) : board :=
  mk_board (bd_trust b) h (bd_staged b) (bd_open_rc b) (bd_load_rc b)
           (bd_sram_rc b) (bd_verdict b) (bd_read_rc b) (bd_write_magic_rc b)
           (bd_write_image_ok_rc b) (bd_status_rc b) (bd_shared_rc b).


Definition board_with_verdict (b : board) (v : image_header -> fih_ret)
  : board :=
  mk_board (bd_trust b) (bd_flash_hdr b) (bd_staged b) (bd_open_rc b)
           (bd_load_rc b) (bd_sram_rc b) v (bd_read_rc b)
           (bd_write_magic_rc b) (bd_write_image_ok_rc b) (bd_status_rc b)
           (bd_shared_rc b).

Definition board_with_read_rc (b : board) (rc : Z) : board :=
  mk_board (bd_trust b) (bd_flash_hdr b) (bd_staged b) (bd_open_rc b)
           (bd_load_rc b) (bd_sram_rc b) (bd_verdict b) rc
           (bd_write_magic_rc b) (bd_write_image_ok_rc b) (bd_status_rc b)
           (bd_shared_rc b).

Definition board_with_load_rc (b : board) (rc : Z) : board :=
  mk_board (bd_trust b) (bd_flash_hdr b) (bd_staged b) (bd_open_rc b) rc
           (bd_sram_rc b) (bd_verdict b) (bd_read_rc b) (bd_write_magic_rc b)
           (bd_write_image_ok_rc b) (bd_status_rc b) (bd_shared_rc b).

Definition board_with_status_rc (b : board) (rc : Z) : board :=
  mk_board (bd_trust b) (bd_flash_hdr b) (bd_staged b) (bd_open_rc b)
           (bd_load_rc b) (bd_sram_rc b) (bd_verdict b) (bd_read_rc b)
           (bd_write_magic_rc b) (bd_write_image_ok_rc b) rc (bd_shared_rc b).

(** A header with the AES-128 encryption flag set. *)
Definition encrypted_hdr : image_header := mk_image_header 0x4 [].

(** An image that was decrypted in place: its header still carries the
    encryption flag, and the validator accepts the header once the flag is
    cleared (and only then). *)
Definition decrypted_board : board :=
  board_with_verdict (board_with_flash_hdr fresh_board encrypted_hdr)
    (fun h => if Z.land (ih_flags h) 0xC =? 0 then 0x1AAAAAAA else 0x15555555).

(** A board whose image fails validation. *)
Definition tampered_board : board :=
  board_with_verdict fresh_board (fun _ => 0x15555555).

(** A board whose trust record is complete. *)
Definition trusted_board : board :=
  board_with_trust fresh_board (mk_boot_swap_state 1 1).

(** A board whose trust record has the magic but not [image_ok]. *)
Definition partial_board : board :=
  board_with_trust fresh_board (mk_boot_swap_state 1 3).

(** The record persisted on a board. *)
Definition board_stored (fa : flash_area_ptr) (b : board) : boot_swap_state :=
  bd_trust b.

(** The machine at reset: no call made, [_fa_p] null, [_hdr] zeroed. *)
Definition reset {World} (w : World) : machine World :=
  mk_machine w [] 0 hdr_zero.

(** The caller's response storage before the call. *)
Definition rsp_blank : boot_rsp := mk_boot_rsp (PtrOther 0) 0 0.

Definition cfg_validate : build_config :=
  mk_build_config true false false false false false.
Definition cfg_validate_once : build_config :=
  mk_build_config false true false false false false.
Definition cfg_measured : build_config :=
  mk_build_config true false true true true false.

Definition cfg_skip : build_config :=
  mk_build_config false false false false false false.

Definition board_with_sram_rc (b : board) (rc : Z) : board :=
  mk_board (bd_trust b) (bd_flash_hdr b) (bd_staged b) (bd_open_rc b)
           (bd_load_rc b) rc (bd_verdict b) (bd_read_rc b)
           (bd_write_magic_rc b) (bd_write_image_ok_rc b) (bd_status_rc b)
           (bd_shared_rc b).

(** The three functions of the unit on the reference platform. *)
Definition board_validate :=
  @boot_image_validate board mcuboot_headers board_collaborators.
Definition board_validate_once :=
  @boot_image_validate_once board mcuboot_headers board_collaborators.
Definition board_boot_go :=
  @boot_go board mcuboot_headers board_collaborators.

(** * Properties *)

(** ** Traces and bit masks *)

Lemma since_extend {World} (m : machine World) w l p h :
  since m (mk_machine w (trace m ++ l) p h) = l.
Proof.
  unfold since; simpl.
  rewrite skipn_app, skipn_all, Nat.sub_diag. reflexivity.
Qed.

Lemma since_trace {World} (m m' : machine World) l :
  trace m' = trace m ++ l -> since m m' = l.
Proof.
  intros E. unfold since. rewrite E, skipn_app, skipn_all, Nat.sub_diag.
  reflexivity.
Qed.

Lemma eqb_neq_false (a b : Z) : a <> b -> (a =? b) = false.
Proof. apply Z.eqb_neq. Qed.

(** Clearing with a 32-bit mask removes every bit of the mask and keeps a
    32-bit field within 32 bits. *)
Lemma clear_flags_clears (flags mask : Z) :
  0 <= mask < 2 ^ 32 ->
  Z.land (clear_flags flags mask) mask = 0.
Proof.
  intros Hm. unfold clear_flags.
  apply Z.bits_inj'. intros n Hn.
  rewrite Z.bits_0, !Z.land_spec.
  destruct (Z.ltb_spec n 32) as [Hlt | Hge].
  - rewrite Z.mod_pow2_bits_low by lia.
    rewrite Z.lnot_spec by lia.
    destruct (Z.testbit mask n), (Z.testbit flags n); reflexivity.
  - replace (Z.testbit mask n) with false.
    + now rewrite andb_false_r.
    + symmetry. rewrite <- (Z.mod_small mask (2 ^ 32)) by lia.
      apply Z.mod_pow2_bits_high. lia.
Qed.

Lemma clear_flags_range (flags mask : Z) :
  0 <= clear_flags flags mask < 2 ^ 32.
Proof.
  unfold clear_flags.
  rewrite <- (Z.land_ones (Z.lnot mask) 32) by lia.
  rewrite Z.land_assoc, Z.land_ones by lia.
  apply Z.mod_pos_bound. lia.
Qed.

Section Properties.

Context {World : Type} {HD : Headers} {CO : Collaborators World}.

(** ** Running the two validation functions *)

Lemma boot_image_validate_run fa hdr (m : machine World) :
  boot_image_validate fa hdr m =
  let h := header_as_validated hdr in
  let r := bootutil_img_validate h fa (world m) in
  ((fst r, h),
   mk_machine (snd r) (trace m ++ [EvImgValidate h fa (fst r)])
              (_fa_p m) (_hdr m)).
Proof.
  unfold boot_image_validate, header_as_validated, bind, call, ret.
  destruct (bootutil_img_validate _ fa (world m)); reflexivity.
Qed.

(** Read error: nothing but the read happens. *)
Lemma validate_once_read_error fa hdr (m : machine World) rc st w' :
  boot_read_swap_state fa swap_state_zero (world m) = ((rc, st), w') ->
  rc <> 0 ->
  boot_image_validate_once fa hdr m =
  ((FIH_FAILURE, hdr),
   mk_machine w' (trace m ++ [EvReadSwapState fa rc st]) (_fa_p m) (_hdr m)).
Proof.
  intros Hread Hrc.
  unfold boot_image_validate_once, bind, call, ret.
  rewrite Hread. simpl. rewrite (eqb_neq_false _ _ Hrc). reflexivity.
Qed.

(** Trusted record: nothing but the read happens. *)
Lemma validate_once_trusted fa hdr (m : machine World) st w' :
  boot_read_swap_state fa swap_state_zero (world m) = ((0, st), w') ->
  magic st = BOOT_MAGIC_GOOD ->
  image_ok st = BOOT_FLAG_SET ->
  boot_image_validate_once fa hdr m =
  ((FIH_SUCCESS, hdr),
   mk_machine w' (trace m ++ [EvReadSwapState fa 0 st]) (_fa_p m) (_hdr m)).
Proof.
  intros Hread Hm Hi.
  unfold boot_image_validate_once, bind, call, ret.
  rewrite Hread. simpl. rewrite Hm, Hi, !Z.eqb_refl. reflexivity.
Qed.

Lemma unverified_test st :
  unverified st ->
  negb (magic st =? BOOT_MAGIC_GOOD) || negb (image_ok st =? BOOT_FLAG_SET)
  = true.
Proof.
  intros [H | H]; rewrite (eqb_neq_false _ _ H); simpl; auto using orb_true_r.
Qed.

(** Unverified record, validation refused: read and validation only. *)
Lemma validate_once_rejected fa hdr (m : machine World) st w1 :
  boot_read_swap_state fa swap_state_zero (world m) = ((0, st), w1) ->
  unverified st ->
  fst (bootutil_img_validate (header_as_validated hdr) fa w1) <> FIH_SUCCESS ->
  boot_image_validate_once fa hdr m =
  ((FIH_FAILURE, header_as_validated hdr), after_validation m fa hdr st w1).
Proof.
  intros Hread Hun Hres.
  unfold boot_image_validate_once, bind at 1, call at 1.
  rewrite Hread. cbn [fst snd]. rewrite Z.eqb_refl. cbn [negb].
  rewrite (unverified_test _ Hun).
  unfold bind at 1. rewrite boot_image_validate_run. cbn zeta. cbn [world trace _fa_p _hdr].
  unfold FIH_NOT_EQ. rewrite (eqb_neq_false _ _ Hres). cbn [negb].
  unfold ret, after_validation. rewrite <- app_assoc. reflexivity.
Qed.

(** Unverified record, validation passed: the writes that follow. *)
Lemma validate_once_accepted fa hdr (m : machine World) st w1 :
  boot_read_swap_state fa swap_state_zero (world m) = ((0, st), w1) ->
  unverified st ->
  fst (bootutil_img_validate (header_as_validated hdr) fa w1) = FIH_SUCCESS ->
  boot_image_validate_once fa hdr m =
  let h := header_as_validated hdr in
  let m2 := after_validation m fa hdr st w1 in
  let write_image_ok :=
    rc <- call (boot_write_image_ok fa) (EvWriteImageOk fa) ;;
    if negb (rc =? 0) then ret (FIH_FAILURE, h) else ret (FIH_SUCCESS, h) in
  (if negb (magic st =? BOOT_MAGIC_GOOD) then
     rc <- call (boot_write_magic fa) (EvWriteMagic fa) ;;
     if negb (rc =? 0) then ret (FIH_FAILURE, h) else write_image_ok
   else write_image_ok) m2.
Proof.
  intros Hread Hun Hres.
  unfold boot_image_validate_once, bind at 1, call at 1.
  rewrite Hread. cbn [fst snd]. rewrite Z.eqb_refl. cbn [negb].
  rewrite (unverified_test _ Hun).
  unfold bind at 1. rewrite boot_image_validate_run. cbn zeta. cbn [world trace _fa_p _hdr].
  unfold FIH_NOT_EQ. rewrite Hres, Z.eqb_refl. cbn [negb].
  unfold after_validation. cbn zeta. rewrite <- app_assoc.
  rewrite Hres. reflexivity.
Qed.

Lemma unverified_dec st :
  {unverified st} +
  {magic st = BOOT_MAGIC_GOOD /\ image_ok st = BOOT_FLAG_SET}.
Proof.
  unfold unverified.
  destruct (Z.eq_dec (magic st) BOOT_MAGIC_GOOD);
    destruct (Z.eq_dec (image_ok st) BOOT_FLAG_SET); auto.
Qed.

Ltac norm_since :=
  cbn [negb fst snd trace world _fa_p _hdr];
  rewrite <- ?app_assoc; cbn [app];
  rewrite ?since_extend.

(** ** [boot_image_validate] *)

(** C1 (as amended).  For a header whose encryption flag is set,
    [boot_image_validate] clears the encryption flags of the in-memory
    header, calls the external validator once on that flag-cleared header
    and returns exactly what the validator returned: the result is the
    success sentinel if and only if the validator's is.  The stored flags
    have no bit of [ENCRYPTIONFLAGS] left when that mask is a 32-bit value. *)
Theorem encrypted_header_result_is_validators fa hdr (m : machine World) res w' :
  IS_ENCRYPTED hdr = true ->
  bootutil_img_validate
    (with_flags hdr (clear_flags (ih_flags hdr) ENCRYPTIONFLAGS)) fa (world m)
  = (res, w') ->
  let hdr' := with_flags hdr (clear_flags (ih_flags hdr) ENCRYPTIONFLAGS) in
  boot_image_validate fa hdr m =
    ((res, hdr'),
     mk_machine w' (trace m ++ [EvImgValidate hdr' fa res]) (_fa_p m) (_hdr m))
  /\ (fst (fst (boot_image_validate fa hdr m)) = FIH_SUCCESS <->
      res = FIH_SUCCESS)
  /\ (0 <= ENCRYPTIONFLAGS < 2 ^ 32 ->
      Z.land (ih_flags hdr') ENCRYPTIONFLAGS = 0).
Proof.
  intros Henc Hval hdr'.
  assert (Hrun : boot_image_validate fa hdr m =
    ((res, hdr'),
     mk_machine w' (trace m ++ [EvImgValidate hdr' fa res]) (_fa_p m) (_hdr m))).
  { rewrite boot_image_validate_run. unfold header_as_validated.
    rewrite Henc. fold hdr'. cbn zeta. unfold hdr' in *. rewrite Hval.
    reflexivity. }
  split; [exact Hrun | split].
  - rewrite Hrun. reflexivity.
  - intros Hmask. unfold hdr'. cbn [ih_flags with_flags].
    now apply clear_flags_clears.
Qed.

(** ** [boot_image_validate_once] *)

(** C3.  When the trust record reads back as [magic == BOOT_MAGIC_GOOD] and
    [image_ok == BOOT_FLAG_SET], [boot_image_validate_once] makes the read
    and nothing else: no call of the validator, no trust-store write, and
    it returns [FIH_SUCCESS]. *)
Theorem trusted_record_skips_validation fa hdr (m : machine World) st w' :
  boot_read_swap_state fa swap_state_zero (world m) = ((0, st), w') ->
  magic st = BOOT_MAGIC_GOOD ->
  image_ok st = BOOT_FLAG_SET ->
  let r := boot_image_validate_once fa hdr m in
  fst (fst r) = FIH_SUCCESS /\
  since m (snd r) = [EvReadSwapState fa 0 st] /\
  count is_img_validate (since m (snd r)) = 0%nat /\
  count is_trust_write (since m (snd r)) = 0%nat /\
  world (snd r) = w'.
Proof.
  intros Hread Hm Hi r. unfold r.
  rewrite (validate_once_trusted _ _ _ _ _ Hread Hm Hi).
  norm_since. repeat split; reflexivity.
Qed.

(** C9.  When [boot_read_swap_state] returns nonzero,
    [boot_image_validate_once] returns [FIH_FAILURE] at once: the validator
    is not called and nothing is written to the trust store, whatever the
    validator would have said about the image. *)
Theorem read_error_rejects_without_validation fa hdr (m : machine World)
  rc st w' :
  boot_read_swap_state fa swap_state_zero (world m) = ((rc, st), w') ->
  rc <> 0 ->
  let r := boot_image_validate_once fa hdr m in
  fst (fst r) = FIH_FAILURE /\
  since m (snd r) = [EvReadSwapState fa rc st] /\
  count is_img_validate (since m (snd r)) = 0%nat /\
  count is_trust_write (since m (snd r)) = 0%nat /\
  world (snd r) = w'.
Proof.
  intros Hread Hrc r. unfold r.
  rewrite (validate_once_read_error _ _ _ _ _ _ Hread Hrc).
  norm_since. repeat split; reflexivity.
Qed.

(** C5.  After a successful validation of an unverified record, the magic
    is written first, and only when the magic read back was not
    [BOOT_MAGIC_GOOD]; [image_ok] is written second; a nonzero return of
    either write makes the call return [FIH_FAILURE] (and a failed magic
    write is not followed by the [image_ok] write).  The return codes are
    the ones [boot_write_magic] and [boot_write_image_ok] give on the world
    they are called in, and the machine the call ends in is the one those
    calls leave. *)
Theorem validated_writes_magic_then_image_ok fa hdr (m : machine World)
  st w1 w2 :
  boot_read_swap_state fa swap_state_zero (world m) = ((0, st), w1) ->
  unverified st ->
  bootutil_img_validate (header_as_validated hdr) fa w1 = (FIH_SUCCESS, w2) ->
  let h := header_as_validated hdr in
  let pre := [EvReadSwapState fa 0 st; EvImgValidate h fa FIH_SUCCESS] in
  let verdict := fun rc : Z => if rc =? 0 then FIH_SUCCESS else FIH_FAILURE in
  let r := boot_image_validate_once fa hdr m in
  (magic st <> BOOT_MAGIC_GOOD ->
   forall rc1 w3,
     boot_write_magic fa w2 = (rc1, w3) ->
     (rc1 <> 0 ->
      r = ((FIH_FAILURE, h),
           mk_machine w3 (trace m ++ pre ++ [EvWriteMagic fa rc1])
                      (_fa_p m) (_hdr m))) /\
     (rc1 = 0 ->
      forall rc2 w4,
        boot_write_image_ok fa w3 = (rc2, w4) ->
        r = ((verdict rc2, h),
             mk_machine w4
               (trace m ++ pre ++ [EvWriteMagic fa 0; EvWriteImageOk fa rc2])
               (_fa_p m) (_hdr m)))) /\
  (magic st = BOOT_MAGIC_GOOD ->
   forall rc2 w4,
     boot_write_image_ok fa w2 = (rc2, w4) ->
     r = ((verdict rc2, h),
          mk_machine w4 (trace m ++ pre ++ [EvWriteImageOk fa rc2])
                     (_fa_p m) (_hdr m))).
Proof.
  intros Hread Hun Hv h pre verdict r. subst r verdict pre h.
  assert (Hres : fst (bootutil_img_validate (header_as_validated hdr) fa w1)
                 = FIH_SUCCESS) by (rewrite Hv; reflexivity).
  rewrite (validate_once_accepted _ _ _ _ _ Hread Hun Hres). cbn zeta.
  unfold after_validation. cbn zeta. rewrite Hv. cbn [fst snd].
  split.
  - intros Hg rc1 w3 Hw1.
    rewrite (eqb_neq_false _ _ Hg). cbn [negb]. split.
    + intros Hrc1. unfold bind, call, ret. cbn [world trace _fa_p _hdr].
      rewrite Hw1, (eqb_neq_false _ _ Hrc1). cbn [negb].
      rewrite <- app_assoc. reflexivity.
    + intros Hz rc2 w4 Hw2. subst rc1.
      unfold bind, call, ret. cbn [world trace _fa_p _hdr].
      rewrite Hw1. cbn [negb Z.eqb world trace _fa_p _hdr]. rewrite Hw2.
      destruct (rc2 =? 0); cbn [negb]; rewrite <- !app_assoc; reflexivity.
  - intros Hg rc2 w4 Hw2.
    rewrite Hg, Z.eqb_refl. cbn [negb].
    unfold bind, call, ret. cbn [world trace _fa_p _hdr]. rewrite Hw2.
    destruct (rc2 =? 0); cbn [negb]; rewrite <- !app_assoc; reflexivity.
Qed.

Ltac no_such_event H :=
  simpl in H;
  repeat (destruct H as [H | H]; [try discriminate H |]);
  try contradiction.

(** C4.  When the validation run by [boot_image_validate_once] does not
    return [FIH_SUCCESS], the call returns [FIH_FAILURE], makes no
    trust-store write (so [image_ok] is not set) and leaves the stored
    record as it was.  In every execution a stored [BOOT_MAGIC_GOOD] magic
    and a stored [BOOT_FLAG_SET] [image_ok] are still there afterwards: the
    record only moves toward validated.  (The stored record is the one of a
    trust state store that honours [trust_store_contract].) *)
Theorem failed_validation_leaves_trust_record
  (stored : flash_area_ptr -> World -> boot_swap_state) fa hdr
  (m : machine World) :
  trust_store_contract stored ->
  let r := boot_image_validate_once fa hdr m in
  let evs := since m (snd r) in
  (forall h f res,
      In (EvImgValidate h f res) evs -> res <> FIH_SUCCESS ->
      fst (fst r) = FIH_FAILURE /\
      count is_trust_write evs = 0%nat /\
      stored fa (world (snd r)) = stored fa (world m)) /\
  (magic (stored fa (world m)) = BOOT_MAGIC_GOOD ->
   magic (stored fa (world (snd r))) = BOOT_MAGIC_GOOD) /\
  (image_ok (stored fa (world m)) = BOOT_FLAG_SET ->
   image_ok (stored fa (world (snd r))) = BOOT_FLAG_SET).
Proof.
  intros HC r evs. subst evs r.
  destruct (boot_read_swap_state fa swap_state_zero (world m))
    as [[rc st] w1] eqn:Hread.
  pose proof (read_keeps _ HC _ _ _ _ _ Hread) as K1.
  destruct (Z.eq_dec rc 0) as [-> | Hrc].
  2: { rewrite (validate_once_read_error _ _ _ _ _ _ Hread Hrc). norm_since.
       rewrite K1. split; [| tauto].
       intros h f res HIn _. no_such_event HIn. }
  destruct (unverified_dec st) as [Hun | [Hm Hi]].
  2: { rewrite (validate_once_trusted _ _ _ _ _ Hread Hm Hi). norm_since.
       rewrite K1. split; [| tauto].
       intros h f res HIn _. no_such_event HIn. }
  destruct (bootutil_img_validate (header_as_validated hdr) fa w1)
    as [res w2] eqn:Hv.
  pose proof (validate_keeps _ HC _ _ _ _ _ Hv) as K2.
  destruct (Z.eq_dec res FIH_SUCCESS) as [-> | Hres].
  - (* validation passed: the hypothesis of the first part cannot hold *)
    assert (Hfst : fst (bootutil_img_validate (header_as_validated hdr) fa w1)
                   = FIH_SUCCESS) by (rewrite Hv; reflexivity).
    rewrite (validate_once_accepted _ _ _ _ _ Hread Hun Hfst). cbn zeta.
    unfold after_validation. cbn zeta. rewrite Hv. cbn [fst snd].
    destruct (Z.eqb_spec (magic st) BOOT_MAGIC_GOOD) as [Hg | Hg]; cbn [negb];
      unfold bind, call, ret; cbn [world trace _fa_p _hdr].
    + destruct (boot_write_image_ok fa w2) as [rc2 w3] eqn:Hw2.
      destruct (write_image_ok_field _ HC _ _ _ _ Hw2) as [Km Ki].
      destruct (rc2 =? 0); norm_since.
      all: split; [| split].
      all: try (intros h f res HIn Hne; exfalso; simpl in HIn;
        repeat (destruct HIn as [HIn | HIn]; [try discriminate HIn |]);
        try contradiction; inversion HIn; subst; contradiction).
      all: try (intros Hgood; rewrite Km, K2, K1; exact Hgood).
      all: intros Hset; apply Ki; right; rewrite K2, K1; exact Hset.
    + destruct (boot_write_magic fa w2) as [rc1 w3] eqn:Hw1.
      destruct (write_magic_field _ HC _ _ _ _ Hw1) as [Ki1 Km1].
      destruct (Z.eqb_spec rc1 0) as [Hz | Hnz]; cbn [negb].
      * cbn [world trace _fa_p _hdr].
        destruct (boot_write_image_ok fa w3) as [rc2 w4] eqn:Hw2.
        destruct (write_image_ok_field _ HC _ _ _ _ Hw2) as [Km2 Ki2].
        destruct (rc2 =? 0); norm_since.
        all: split; [| split].
        all: try (intros h f res HIn Hne; exfalso; simpl in HIn;
          repeat (destruct HIn as [HIn | HIn]; [try discriminate HIn |]);
          try contradiction; inversion HIn; subst; contradiction).
        all: try (intros Hgood; rewrite Km2; apply Km1; now left).
        all: intros Hset; apply Ki2; right; rewrite Ki1, K2, K1; exact Hset.
      * norm_since. split; [| split].
        -- intros h f res HIn Hne. exfalso. simpl in HIn.
           repeat (destruct HIn as [HIn | HIn]; [try discriminate HIn |]);
             try contradiction; inversion HIn; subst; contradiction.
        -- intros Hgood. apply Km1. right. rewrite K2, K1. exact Hgood.
        -- intros Hset. rewrite Ki1, K2, K1. exact Hset.
  - (* validation refused *)
    assert (Hfst : fst (bootutil_img_validate (header_as_validated hdr) fa w1)
                   <> FIH_SUCCESS) by (rewrite Hv; exact Hres).
    rewrite (validate_once_rejected _ _ _ _ _ Hread Hun Hfst).
    unfold after_validation. cbn zeta. rewrite Hv. norm_since.
    rewrite K2, K1. split; [| tauto].
    intros _ _ _ _ _. repeat split; reflexivity.
Qed.

(** C10.  A record read back with [magic == BOOT_MAGIC_GOOD] but
    [image_ok != BOOT_FLAG_SET] is handled as unverified: the validator is
    called (once); when it returns [FIH_SUCCESS] the only write is
    [boot_write_image_ok] (the magic is not written again), called on the
    world the validator left; when that call returns 0 the function returns
    [FIH_SUCCESS] in the world the write left, whose stored record is
    [{GOOD, SET}], so that a later boot that reads it back skips validation
    and succeeds. *)
Theorem partial_record_is_completed
  (stored : flash_area_ptr -> World -> boot_swap_state) fa hdr
  (m : machine World) st w1 res w2 :
  trust_store_contract stored ->
  boot_read_swap_state fa swap_state_zero (world m) = ((0, st), w1) ->
  magic st = BOOT_MAGIC_GOOD ->
  image_ok st <> BOOT_FLAG_SET ->
  bootutil_img_validate (header_as_validated hdr) fa w1 = (res, w2) ->
  let h := header_as_validated hdr in
  let r := boot_image_validate_once fa hdr m in
  (res <> FIH_SUCCESS ->
   r = ((FIH_FAILURE, h),
        mk_machine w2
          (trace m ++ [EvReadSwapState fa 0 st; EvImgValidate h fa res])
          (_fa_p m) (_hdr m))) /\
  (res = FIH_SUCCESS ->
   forall rc w3,
     boot_write_image_ok fa w2 = (rc, w3) ->
     r = ((if rc =? 0 then FIH_SUCCESS else FIH_FAILURE, h),
          mk_machine w3
            (trace m ++ [EvReadSwapState fa 0 st; EvImgValidate h fa res;
                         EvWriteImageOk fa rc])
            (_fa_p m) (_hdr m)) /\
     (rc = 0 ->
      magic (stored fa w3) = BOOT_MAGIC_GOOD /\
      image_ok (stored fa w3) = BOOT_FLAG_SET /\
      forall hdr2 (m2 : machine World) st2 w4,
        world m2 = w3 ->
        boot_read_swap_state fa swap_state_zero (world m2) = ((0, st2), w4) ->
        magic st2 = BOOT_MAGIC_GOOD /\ image_ok st2 = BOOT_FLAG_SET /\
        boot_image_validate_once fa hdr2 m2 =
          ((FIH_SUCCESS, hdr2),
           mk_machine w4 (trace m2 ++ [EvReadSwapState fa 0 st2])
                      (_fa_p m2) (_hdr m2)))).
Proof.
  intros HC Hread Hm Hi Hv h r. subst r h.
  assert (Hun : unverified st) by (right; exact Hi).
  pose proof (read_keeps _ HC _ _ _ _ _ Hread) as K1.
  destruct (read_reports _ HC _ _ _ _ _ Hread) as [R1 _].
  pose proof (validate_keeps _ HC _ _ _ _ _ Hv) as K2.
  split.
  - intros Hres.
    assert (Hfst : fst (bootutil_img_validate (header_as_validated hdr) fa w1)
                   <> FIH_SUCCESS) by (rewrite Hv; exact Hres).
    rewrite (validate_once_rejected _ _ _ _ _ Hread Hun Hfst).
    unfold after_validation. cbn zeta. rewrite Hv. reflexivity.
  - intros -> rc w3 Hw.
    assert (Hfst : fst (bootutil_img_validate (header_as_validated hdr) fa w1)
                   = FIH_SUCCESS) by (rewrite Hv; reflexivity).
    rewrite (validate_once_accepted _ _ _ _ _ Hread Hun Hfst). cbn zeta.
    unfold after_validation. cbn zeta. rewrite Hv. cbn [fst snd].
    rewrite Hm, Z.eqb_refl. cbn [negb].
    unfold bind, call, ret. cbn [world trace _fa_p _hdr]. rewrite Hw.
    destruct (write_image_ok_field _ HC _ _ _ _ Hw) as [Km Ki].
    split.
    + destruct (rc =? 0); cbn [negb]; rewrite <- !app_assoc; reflexivity.
    + intros ->.
      assert (Hgood : magic (stored fa w3) = BOOT_MAGIC_GOOD)
        by (rewrite Km, K2, K1, <- R1; exact Hm).
      assert (Hset : image_ok (stored fa w3) = BOOT_FLAG_SET)
        by (apply Ki; now left).
      split; [exact Hgood |]. split; [exact Hset |].
      intros hdr2 m2 st2 w4 Hw2 Hread2.
      destruct (read_reports _ HC _ _ _ _ _ Hread2) as [Rm Ri].
      rewrite Hw2 in Rm, Ri. rewrite Hgood in Rm. rewrite Hset in Ri.
      split; [exact Rm |]. split; [exact Ri |].
      exact (validate_once_trusted _ _ _ _ _ Hread2 Rm Ri).
Qed.

(** ** The shape of a run of [boot_go] *)

Lemma quiet_app l1 l2 : quiet l1 -> quiet l2 -> quiet (l1 ++ l2).
Proof.
  unfold quiet. intros H1 H2. rewrite forallb_app, H1, H2. reflexivity.
Qed.

Lemma absent_app p l1 l2 : absent p l1 -> absent p l2 -> absent p (l1 ++ l2).
Proof.
  unfold absent. intros H1 H2. rewrite forallb_app, H1, H2. reflexivity.
Qed.

Lemma count_app p l1 l2 : count p (l1 ++ l2) = (count p l1 + count p l2)%nat.
Proof. unfold count. rewrite filter_app, length_app. reflexivity. Qed.

Lemma evidence_tail_returns fih_rc rsp fa tl out rsp' :
  evidence_tail fih_rc rsp fa tl out rsp' -> out <> AssertFailed.
Proof. intros []; discriminate. Qed.

Ltac run_calls :=
  unfold bind, call, call_void, ret, get, set_hdr, set_fa_p;
  cbn [fst snd world trace _fa_p _hdr].

Ltac flat_trace :=
  cbn [negb fst snd world trace _fa_p _hdr];
  rewrite <- ?app_assoc; cbn [app].

Section Runs.

Variable cfg : build_config.

Lemma boot_go_out_run fih_rc rsp (m : machine World) :
  boot_go_out fih_rc rsp m =
  ((Returned fih_rc, rsp),
   mk_machine (flash_area_close (_fa_p m) (world m))
              (trace m ++ [EvFlashAreaClose (_fa_p m)]) (_fa_p m) (_hdr m)).
Proof. reflexivity. Qed.

Lemma boot_go_response_run fih_rc rsp (m : machine World) :
  boot_go_response fih_rc rsp m =
  ((Returned fih_rc, response_for (_fa_p m) (world m)),
   mk_machine (flash_area_close (_fa_p m) (world m))
              (trace m ++ [EvFlashAreaClose (_fa_p m)]) (_fa_p m) (_hdr m)).
Proof. reflexivity. Qed.

(** Lines 158-181: what follows a validation step that passed. *)
Lemma boot_go_measure_run fih_rc rsp (m : machine World) :
  let r := boot_go_measure cfg fih_rc rsp m in
  exists tl,
    trace (snd r) = trace m ++ tl /\
    evidence_tail fih_rc rsp (_fa_p m) tl (fst (fst r)) (snd (fst r)).
Proof.
  unfold boot_go_measure, boot_go_share.
  destruct (MCUBOOT_MEASURED_BOOT cfg); destruct (MCUBOOT_DATA_SHARING cfg);
    run_calls.
  - destruct (boot_save_boot_status 0 (_hdr m) (_fa_p m) (world m))
      as [rc1 w1].
    destruct (Z.eqb_spec rc1 0) as [-> | H1]; flat_trace.
    + destruct (boot_save_shared_data (_hdr m) (_fa_p m) 0 w1) as [rc2 w2].
      destruct (Z.eqb_spec rc2 0) as [-> | H2]; flat_trace.
      * rewrite boot_go_response_run. flat_trace.
        eexists. split; [reflexivity |].
        apply (tail_booted _ _ _ [EvSaveBootStatus 0; EvSaveSharedData 0]).
        reflexivity.
      * eexists. split; [reflexivity |].
        apply (tail_failed _ _ _ [EvSaveBootStatus 0] _ rc2);
          [reflexivity | reflexivity | exact H2].
    + eexists. split; [reflexivity |].
      apply (tail_failed _ _ _ [] _ rc1);
        [reflexivity | reflexivity | exact H1].
  - destruct (boot_save_boot_status 0 (_hdr m) (_fa_p m) (world m))
      as [rc1 w1].
    destruct (Z.eqb_spec rc1 0) as [-> | H1]; flat_trace.
    + rewrite boot_go_response_run. flat_trace.
      eexists. split; [reflexivity |].
      apply (tail_booted _ _ _ [EvSaveBootStatus 0]). reflexivity.
    + eexists. split; [reflexivity |].
      apply (tail_failed _ _ _ [] _ rc1);
        [reflexivity | reflexivity | exact H1].
  - destruct (boot_save_shared_data (_hdr m) (_fa_p m) 0 (world m))
      as [rc2 w2].
    destruct (Z.eqb_spec rc2 0) as [-> | H2]; flat_trace.
    + rewrite boot_go_response_run. flat_trace.
      eexists. split; [reflexivity |].
      apply (tail_booted _ _ _ [EvSaveSharedData 0]). reflexivity.
    + eexists. split; [reflexivity |].
      apply (tail_failed _ _ _ [] _ rc2);
        [reflexivity | reflexivity | exact H2].
  - rewrite boot_go_response_run. flat_trace.
    eexists. split; [reflexivity |].
    apply (tail_booted _ _ _ []). reflexivity.
Qed.

(** The calls of [boot_image_validate_once] form a setup, and the statics
    are not touched. *)
Lemma validate_once_events fa hdr (m : machine World) :
  let r := boot_image_validate_once fa hdr m in
  exists a,
    trace (snd r) = trace m ++ a /\ setup a /\
    _fa_p (snd r) = _fa_p m /\ _hdr (snd r) = _hdr m.
Proof.
  unfold boot_image_validate_once, boot_image_validate. run_calls.
  destruct (boot_read_swap_state fa swap_state_zero (world m))
    as [[rc st] w1].
  cbn [fst snd].
  destruct (negb (rc =? 0)); flat_trace.
  { eexists. split; [reflexivity |]. repeat split. apply le_S, le_n. }
  destruct (negb (magic st =? BOOT_MAGIC_GOOD)
            || negb (image_ok st =? BOOT_FLAG_SET)); flat_trace.
  2: { eexists. split; [reflexivity |]. repeat split. apply le_S, le_n. }
  destruct (bootutil_img_validate _ fa w1) as [res w2].
  destruct (FIH_NOT_EQ res FIH_SUCCESS); flat_trace.
  { eexists. split; [reflexivity |]. repeat split. apply le_n. }
  destruct (negb (magic st =? BOOT_MAGIC_GOOD)); flat_trace.
  - destruct (boot_write_magic fa w2) as [rc1 w3].
    destruct (negb (rc1 =? 0)); flat_trace.
    { eexists. split; [reflexivity |]. repeat split. apply le_n. }
    destruct (boot_write_image_ok fa w3) as [rc2 w4].
    destruct (negb (rc2 =? 0)); flat_trace;
      (eexists; split; [reflexivity |]; repeat split; apply le_n).
  - destruct (boot_write_image_ok fa w2) as [rc2 w4].
    destruct (negb (rc2 =? 0)); flat_trace;
      (eexists; split; [reflexivity |]; repeat split; apply le_n).
Qed.

Lemma fih_eq_test (x y : fih_ret) : FIH_NOT_EQ x y = false -> x = y.
Proof.
  unfold FIH_NOT_EQ. intros H. apply Z.eqb_eq.
  destruct (x =? y); [reflexivity | discriminate].
Qed.

Lemma fih_neq_test (x y : fih_ret) : FIH_NOT_EQ x y = true -> x <> y.
Proof.
  unfold FIH_NOT_EQ. intros H. apply Z.eqb_neq.
  destruct (x =? y); [discriminate | reflexivity].
Qed.

(** The failure branch of a validation block, after setup [a]. *)
Lemma boot_go_rejected_run state fih_rc rsp (m m0 : machine World) a :
  trace m = trace m0 ++ a -> setup a -> fih_rc <> FIH_SUCCESS ->
  let r := boot_go_rejected cfg state fih_rc rsp m in
  exists evs,
    trace (snd r) = trace m0 ++ evs /\
    boot_go_run rsp evs (fst (fst r)) (snd (fst r)) /\
    fst (fst r) <> AssertFailed.
Proof.
  intros Ht (Hq & _ & Hc) Hne. unfold boot_go_rejected.
  destruct (MCUBOOT_RAM_LOAD cfg); run_calls; rewrite boot_go_out_run;
    flat_trace; rewrite Ht; flat_trace.
  - exists ((a ++ [EvRemoveImageFromSram]) ++ [EvFlashAreaClose (_fa_p m)]).
    split; [now rewrite <- !app_assoc |]. split; [| discriminate].
    apply run_rejected.
    + apply quiet_app; [exact Hq | reflexivity].
    + rewrite count_app. cbn. rewrite Nat.add_0_r. exact Hc.
    + left; exact Hne.
  - exists (a ++ [EvFlashAreaClose (_fa_p m)]).
    split; [reflexivity |]. split; [| discriminate].
    apply run_rejected; [exact Hq | exact Hc | left; exact Hne].
Qed.

(** The continuation of a validation block that passed, after setup [a]. *)
Lemma boot_go_passed_run fih_rc rsp (m m0 : machine World) a :
  trace m = trace m0 ++ a -> setup a -> fih_rc = FIH_SUCCESS ->
  let r := boot_go_measure cfg fih_rc rsp m in
  exists evs,
    trace (snd r) = trace m0 ++ evs /\
    boot_go_run rsp evs (fst (fst r)) (snd (fst r)) /\
    fst (fst r) <> AssertFailed.
Proof.
  intros Ht Hs ->.
  destruct (boot_go_measure_run FIH_SUCCESS rsp m) as (tl & Htl & Htail).
  cbn zeta. exists (a ++ tl). split; [| split].
  - rewrite Htl, Ht, app_assoc. reflexivity.
  - apply run_passed with (fa := _fa_p m); assumption.
  - eapply evidence_tail_returns; eassumption.
Qed.

(** Lines 138-181. *)
Lemma boot_go_authenticate_run state rsp (m : machine World) :
  let r := boot_go_authenticate cfg state rsp m in
  exists evs,
    trace (snd r) = trace m ++ evs /\
    boot_go_run rsp evs (fst (fst r)) (snd (fst r)) /\
    fst (fst r) <> AssertFailed.
Proof.
  unfold boot_go_authenticate.
  destruct (MCUBOOT_VALIDATE_PRIMARY_SLOT cfg).
  - run_calls. rewrite boot_image_validate_run. cbn zeta.
    destruct (bootutil_img_validate _ (_fa_p m) (world m)) as [res w1].
    cbn [fst snd world trace _fa_p _hdr].
    destruct (FIH_NOT_EQ res FIH_SUCCESS) eqn:Ht.
    + eapply boot_go_rejected_run;
        [cbn [trace]; reflexivity | | now apply fih_neq_test].
      repeat split. apply le_n.
    + eapply boot_go_passed_run;
        [cbn [trace]; reflexivity | | now apply fih_eq_test].
      repeat split. apply le_n.
  - destruct (MCUBOOT_VALIDATE_PRIMARY_SLOT_ONCE cfg).
    + run_calls.
      destruct (validate_once_events (_fa_p m) (_hdr m) m)
        as (a & Ha & Hs & Hfa & Hh).
      destruct (boot_image_validate_once (_fa_p m) (_hdr m) m)
        as [[res h] m1].
      cbn [fst snd] in *.
      destruct (FIH_NOT_EQ res FIH_SUCCESS) eqn:Ht.
      * eapply boot_go_rejected_run;
          [cbn [trace]; exact Ha | exact Hs | now apply fih_neq_test].
      * eapply boot_go_passed_run;
          [cbn [trace]; exact Ha | exact Hs | now apply fih_eq_test].
    + eapply boot_go_passed_run with (a := []);
        [now rewrite app_nil_r | | reflexivity].
      repeat split. apply le_S, le_n.
Qed.

Lemma run_prepend e rsp evs out rsp' :
  plain e = true -> out <> AssertFailed ->
  boot_go_run rsp evs out rsp' -> boot_go_run rsp (e :: evs) out rsp'.
Proof.
  unfold plain. intros Hp Hout Hrun.
  apply andb_prop in Hp as [Hp Hv]. apply andb_prop in Hp as [Hp Hr].
  assert (Hcount : forall l, count is_img_validate (e :: l)
                             = count is_img_validate l).
  { intros l. unfold count. cbn [filter].
    destruct (is_img_validate e); [discriminate | reflexivity]. }
  destruct Hrun as [id rc Hrc | pre fa v Hq Hc Hv' | pre fa tl out rsp' Hs Ht].
  - now elim Hout.
  - change (e :: pre ++ [EvFlashAreaClose fa])
      with ((e :: pre) ++ [EvFlashAreaClose fa]).
    apply run_rejected; [| rewrite Hcount; exact Hc | exact Hv'].
    unfold quiet in *. cbn [forallb]. rewrite Hp, Hq. reflexivity.
  - change (e :: pre ++ tl) with ((e :: pre) ++ tl).
    apply run_passed with (fa := fa); [| exact Ht].
    destruct Hs as (Hq & Ha & Hc). repeat split.
    + unfold quiet in *. cbn [forallb]. rewrite Hp, Hq. reflexivity.
    + unfold absent in *. cbn [forallb]. rewrite Hr, Ha. reflexivity.
    + rewrite Hcount. exact Hc.
Qed.

(** Lines 128-181. *)
Lemma boot_go_stage_run rsp (m : machine World) :
  let r := boot_go_stage cfg rsp m in
  exists evs,
    trace (snd r) = trace m ++ evs /\
    boot_go_run rsp evs (fst (fst r)) (snd (fst r)) /\
    fst (fst r) <> AssertFailed.
Proof.
  unfold boot_go_stage. run_calls.
  destruct (MCUBOOT_RAM_LOAD cfg); [| apply boot_go_authenticate_run].
  destruct (boot_load_image_to_sram _ (world m)) as [rc w1].
  destruct (Z.eqb_spec rc 0) as [-> | Hrc]; cbn [negb].
  - match goal with
    | |- context [boot_go_authenticate cfg ?st ?r ?m1] =>
        destruct (boot_go_authenticate_run st r m1) as (evs & Ht & Hr & Ho)
    end.
    cbn [trace] in Ht.
    exists (EvLoadImageToSram 0 :: evs). split; [| split].
    + rewrite Ht, <- app_assoc. reflexivity.
    + apply run_prepend; [reflexivity | exact Ho | exact Hr].
    + exact Ho.
  - rewrite boot_go_out_run. flat_trace.
    exists ([EvLoadImageToSram rc] ++ [EvFlashAreaClose (_fa_p m)]).
    split; [reflexivity |]. split; [| discriminate].
    apply run_rejected; [reflexivity | apply le_S, le_n | now right].
Qed.

(** Every run of [boot_go] has one of the shapes of [boot_go_run]. *)
Lemma boot_go_runs rsp (m : machine World) :
  let r := boot_go cfg rsp m in
  exists evs,
    trace (snd r) = trace m ++ evs /\
    boot_go_run rsp evs (fst (fst r)) (snd (fst r)).
Proof.
  unfold boot_go. run_calls.
  destruct (flash_area_open (FLASH_AREA_IMAGE_PRIMARY 0) (_fa_p m) (world m))
    as [[rc p] w1].
  cbn [fst snd world trace _fa_p _hdr].
  destruct (NDEBUG cfg); cbn [negb andb];
    [| destruct (Z.eqb_spec rc 0) as [Hz | Hrc]; cbn [negb]].
  3: { cbn [fst snd trace]. eexists. split; [reflexivity |].
       now apply run_asserted. }
  all: cbn [fst snd world trace _fa_p _hdr];
    destruct (boot_image_load_header p (_hdr m) w1) as [[rc2 h] w2];
    cbn [fst snd world trace _fa_p _hdr];
    destruct (Z.eqb_spec rc2 0) as [Hz2 | Hrc2]; cbn [negb].
  all: try (rewrite boot_go_out_run; flat_trace;
    exists ([EvFlashAreaOpen (FLASH_AREA_IMAGE_PRIMARY 0) rc;
             EvLoadHeader p rc2] ++ [EvFlashAreaClose p]);
    split; [reflexivity |];
    apply run_rejected; [reflexivity | apply le_S, le_n | now right]).
  all: match goal with
    | |- context [boot_go_stage cfg ?r ?m1] =>
        destruct (boot_go_stage_run r m1) as (evs & Ht & Hr & Ho)
    end;
    cbn [trace] in Ht;
    exists (EvFlashAreaOpen (FLASH_AREA_IMAGE_PRIMARY 0) rc
            :: EvLoadHeader p rc2 :: evs);
    (split; [rewrite Ht, <- !app_assoc; reflexivity |]);
    apply run_prepend; [reflexivity | exact Ho |];
    apply run_prepend; [reflexivity | exact Ho | exact Hr].
Qed.

End Runs.

(** ** Reading a failure of evidence recording off a trace *)

Lemma quiet_cons e l :
  quiet (e :: l) -> evidence_rc e = None /\ is_close e = false /\ quiet l.
Proof.
  unfold quiet. cbn [forallb]. intros H.
  apply andb_prop in H as [H Hl]. apply andb_prop in H as [He Hc].
  unfold is_evidence in He.
  destruct (evidence_rc e); [discriminate |].
  destruct (is_close e); [discriminate |]. auto.
Qed.

Lemma recorded_cons e l :
  all_recorded (e :: l) -> evidence_rc e = Some 0 /\ all_recorded l.
Proof.
  unfold all_recorded. cbn [forallb]. intros H.
  apply andb_prop in H as [He Hl].
  destruct (evidence_rc e) as [rc |]; [| discriminate].
  apply Z.eqb_eq in He. subst. auto.
Qed.

Lemma first_failure_quiet pre l :
  quiet pre -> first_evidence_failure (pre ++ l) = first_evidence_failure l.
Proof.
  induction pre as [| e pre IH]; intros Hq; [reflexivity |].
  apply quiet_cons in Hq as (He & _ & Hq).
  cbn [app first_evidence_failure]. rewrite He. auto.
Qed.

Lemma first_failure_recorded oks l :
  all_recorded oks ->
  first_evidence_failure (oks ++ l) = first_evidence_failure l.
Proof.
  induction oks as [| e oks IH]; intros Hr; [reflexivity |].
  apply recorded_cons in Hr as (He & Hr).
  cbn [app first_evidence_failure]. rewrite He. cbn. auto.
Qed.

Lemma from_first_evidence_quiet pre l :
  quiet pre -> from_first_evidence (pre ++ l) = from_first_evidence l.
Proof.
  induction pre as [| e pre IH]; intros Hq; [reflexivity |].
  apply quiet_cons in Hq as (He & _ & Hq).
  cbn [app from_first_evidence]. unfold is_evidence at 1. rewrite He. auto.
Qed.

Lemma recorded_evidence oks : all_recorded oks -> forallb is_evidence oks = true.
Proof.
  induction oks as [| e oks IH]; intros Hr; [reflexivity |].
  apply recorded_cons in Hr as (He & Hr).
  cbn [forallb]. unfold is_evidence at 1. rewrite He. auto.
Qed.

Lemma from_first_evidence_all l :
  forallb is_evidence l = true -> from_first_evidence l = l.
Proof.
  destruct l as [| e l]; [reflexivity |]. cbn [forallb from_first_evidence].
  intros H. apply andb_prop in H as [-> _]. reflexivity.
Qed.

Lemma evidence_absent (p : event -> bool) l :
  (forall e, is_evidence e = true -> p e = false) ->
  forallb is_evidence l = true -> absent p l.
Proof.
  intros Hp. unfold absent.
  induction l as [| e l IH]; [reflexivity |]. cbn [forallb]. intros H.
  apply andb_prop in H as [He Hl]. rewrite (Hp e He), IH; auto.
Qed.

Lemma evidence_count (p : event -> bool) l :
  (forall e, is_evidence e = true -> p e = false) ->
  forallb is_evidence l = true -> count p l = 0%nat.
Proof.
  intros Hp. unfold count.
  induction l as [| e l IH]; [reflexivity |]. cbn [forallb filter]. intros H.
  apply andb_prop in H as [He Hl]. rewrite (Hp e He). auto.
Qed.

Lemma quiet_no_close pre : quiet pre -> count is_close pre = 0%nat.
Proof.
  unfold count.
  induction pre as [| e pre IH]; intros Hq; [reflexivity |].
  apply quiet_cons in Hq as (_ & Hc & Hq). cbn [filter]. rewrite Hc. auto.
Qed.

Lemma evidence_not (p : event -> bool) :
  (forall e, p e = true -> evidence_rc e = None) ->
  forall e, is_evidence e = true -> p e = false.
Proof.
  intros Hp e He. destruct (p e) eqn:E; [| reflexivity].
  unfold is_evidence in He. rewrite (Hp e E) in He. discriminate.
Qed.

Lemma evidence_not_remove e : is_evidence e = true -> is_remove_sram e = false.
Proof. apply evidence_not. intros []; (reflexivity || discriminate). Qed.

Lemma evidence_not_validate e :
  is_evidence e = true -> is_img_validate e = false.
Proof. apply evidence_not. intros []; (reflexivity || discriminate). Qed.

Lemma evidence_not_write e : is_evidence e = true -> is_trust_write e = false.
Proof. apply evidence_not. intros []; (reflexivity || discriminate). Qed.

Lemma evidence_not_close e : is_evidence e = true -> is_close e = false.
Proof. apply evidence_not. intros []; (reflexivity || discriminate). Qed.

(** The tail of a run in which an evidence-recording call failed. *)
Lemma failed_tail fih_rc rsp fa tl out rsp' rc post :
  evidence_tail fih_rc rsp fa tl out rsp' ->
  first_evidence_failure tl = Some (rc, post) ->
  out = Returned rc /\ rc <> 0 /\ post = [] /\ rsp' = rsp /\
  forallb is_evidence tl = true.
Proof.
  intros [oks w Hr | oks e rc' Hr He Hrc].
  - rewrite (first_failure_recorded _ _ Hr). discriminate.
  - rewrite (first_failure_recorded _ _ Hr). cbn [first_evidence_failure].
    rewrite He, (eqb_neq_false _ _ Hrc). intros [= <- <-].
    repeat split; try assumption.
    rewrite forallb_app, (recorded_evidence _ Hr). cbn [forallb].
    unfold is_evidence. rewrite He. reflexivity.
Qed.

(** ** [boot_go] *)

(** X21.  When a measured-boot or shared-data call of a run of [boot_go]
    returns nonzero (which only happens after the validation step let the
    image through), [boot_go] returns that code as its own return value and
    does nothing after the failed call: from the first evidence-recording call
    on, the run makes no trust-store write and no validator call, the
    staged image is never removed, and the validator was called at most
    once in the whole run.  The response storage is left as it was. *)
Theorem evidence_failure_keeps_trust_decision cfg rsp (m : machine World)
  rc post :
  let r := boot_go cfg rsp m in
  let evs := since m (snd r) in
  first_evidence_failure evs = Some (rc, post) ->
  fst (fst r) = Returned rc /\ rc <> 0 /\ post = [] /\
  snd (fst r) = rsp /\
  absent is_remove_sram evs /\
  absent is_trust_write (from_first_evidence evs) /\
  absent is_img_validate (from_first_evidence evs) /\
  (count is_img_validate evs <= 1)%nat.
Proof.
  intros r evs. subst evs r.
  destruct (boot_go_runs cfg rsp m) as (evs & Ht & Hrun).
  rewrite (since_trace _ _ _ Ht).
  destruct Hrun as [id rc0 Hrc | pre fa v Hq Hc Hv
                   | pre fa tl out rsp' (Hq & Ha & Hc) Htl].
  - discriminate.
  - rewrite (first_failure_quiet _ _ Hq). discriminate.
  - rewrite (first_failure_quiet _ _ Hq). intros Hf.
    destruct (failed_tail _ _ _ _ _ _ _ _ Htl Hf) as (-> & Hrc & -> & -> & He).
    rewrite (from_first_evidence_quiet _ _ Hq), (from_first_evidence_all _ He).
    repeat split; try assumption.
    + apply absent_app; [exact Ha |].
      exact (evidence_absent _ _ evidence_not_remove He).
    + exact (evidence_absent _ _ evidence_not_write He).
    + exact (evidence_absent _ _ evidence_not_validate He).
    + rewrite count_app, (evidence_count _ _ evidence_not_validate He).
      rewrite Nat.add_0_r. exact Hc.
Qed.


(** X20.  How often the region is closed: once on every returning run,
    except when an evidence-recording call failed, where it is not closed
    at all. *)
Lemma boot_go_close_count cfg rsp (m : machine World) v :
  let r := boot_go cfg rsp m in
  let evs := since m (snd r) in
  fst (fst r) = Returned v ->
  (first_evidence_failure evs = None -> count is_close evs = 1%nat) /\
  (first_evidence_failure evs <> None -> count is_close evs = 0%nat).
Proof.
  intros r evs. subst evs r.
  destruct (boot_go_runs cfg rsp m) as (evs & Ht & Hrun).
  rewrite (since_trace _ _ _ Ht).
  destruct Hrun as [id rc0 Hrc | pre fa v' Hq Hc Hv
                   | pre fa tl out rsp' (Hq & Ha & Hc) Htl].
  - discriminate.
  - intros _. rewrite (first_failure_quiet _ _ Hq), count_app.
    rewrite (quiet_no_close _ Hq). split; [reflexivity |].
    intros H; now elim H.
  - intros _. rewrite (first_failure_quiet _ _ Hq), count_app.
    rewrite (quiet_no_close _ Hq).
    destruct Htl as [oks w Hr | oks e rc Hr He Hrc];
      rewrite (first_failure_recorded _ _ Hr), count_app;
      rewrite (evidence_count _ _ evidence_not_close (recorded_evidence _ Hr)).
    + split; [reflexivity |]. intros H; now elim H.
    + cbn [first_evidence_failure]. rewrite He, (eqb_neq_false _ _ Hrc).
      split; [discriminate |]. intros _.
      assert (Hcl : is_close e = false).
      { apply evidence_not_close. unfold is_evidence. now rewrite He. }
      unfold count. cbn [filter]. rewrite Hcl. reflexivity.
Qed.

End Properties.

(** * The paths through the unit *)

Ltac run_calls :=
  unfold bind, call, call_void, ret, get, set_hdr, set_fa_p;
  cbn [fst snd world trace _fa_p _hdr].

Ltac flat_trace :=
  cbn [negb fst snd world trace _fa_p _hdr];
  rewrite <- ?app_assoc; cbn [app].

Section Paths.

Context {World : Type} {HD : Headers} {CO : Collaborators World}.

Variable cfg : build_config.

Lemma validate_once_path fa hdr (m : machine World) :
  let r := boot_image_validate_once fa hdr m in
  exists evs,
    trace (snd r) = trace m ++ evs /\
    once_path fa hdr evs (fst (fst r)) (snd (fst r)) /\
    _fa_p (snd r) = _fa_p m /\ _hdr (snd r) = _hdr m.
Proof.
  cbv zeta.
  destruct (boot_read_swap_state fa swap_state_zero (world m))
    as [[rc st] w1] eqn:Hread.
  destruct (Z.eq_dec rc 0) as [-> | Hrc].
  2: { rewrite (validate_once_read_error _ _ _ _ _ _ Hread Hrc).
       cbn [fst snd trace _fa_p _hdr]. eexists. split; [reflexivity |].
       split; [now apply once_read_error | split; reflexivity]. }
  destruct (unverified_dec st) as [Hun | [Hm Hi]].
  2: { rewrite (validate_once_trusted _ _ _ _ _ Hread Hm Hi).
       cbn [fst snd trace _fa_p _hdr]. eexists. split; [reflexivity |].
       split; [now apply once_trusted | split; reflexivity]. }
  destruct (bootutil_img_validate (header_as_validated hdr) fa w1)
    as [res w2] eqn:Hv.
  destruct (Z.eq_dec res FIH_SUCCESS) as [-> | Hres].
  - assert (Hfst : fst (bootutil_img_validate (header_as_validated hdr) fa w1)
                   = FIH_SUCCESS) by (rewrite Hv; reflexivity).
    rewrite (validate_once_accepted _ _ _ _ _ Hread Hun Hfst). cbn zeta.
    unfold after_validation. cbn zeta. rewrite Hv. cbn [fst snd].
    unfold magic_write.
    destruct (Z.eqb_spec (magic st) BOOT_MAGIC_GOOD) as [Hg | Hg]; cbn [negb];
      unfold bind, call, ret; cbn [world trace _fa_p _hdr].
    + destruct (boot_write_image_ok fa w2) as [rc2 w3].
      pose proof (once_image_ok_failed fa hdr st rc2 Hun) as Hf.
      pose proof (once_recorded fa hdr st Hun) as Hs.
      unfold magic_write in Hf, Hs.
      destruct (Z.eqb_spec (magic st) BOOT_MAGIC_GOOD); [| contradiction].
      destruct (Z.eqb_spec rc2 0) as [-> | Hz]; flat_trace;
        (eexists; split; [reflexivity |]; split; [| split; reflexivity]).
      * exact Hs.
      * exact (Hf Hz).
    + destruct (boot_write_magic fa w2) as [rc1 w3].
      destruct (Z.eqb_spec rc1 0) as [-> | Hz1]; flat_trace.
      * destruct (boot_write_image_ok fa w3) as [rc2 w4].
        pose proof (once_image_ok_failed fa hdr st rc2 Hun) as Hf.
        pose proof (once_recorded fa hdr st Hun) as Hs.
        unfold magic_write in Hf, Hs.
        destruct (Z.eqb_spec (magic st) BOOT_MAGIC_GOOD); [contradiction |].
        destruct (Z.eqb_spec rc2 0) as [-> | Hz]; flat_trace;
          (eexists; split; [reflexivity |]; split; [| split; reflexivity]).
        -- exact Hs.
        -- exact (Hf Hz).
      * eexists. split; [reflexivity |].
        split; [now apply once_magic_failed | split; reflexivity].
  - assert (Hfst : fst (bootutil_img_validate (header_as_validated hdr) fa w1)
                   <> FIH_SUCCESS) by (rewrite Hv; exact Hres).
    rewrite (validate_once_rejected _ _ _ _ _ Hread Hun Hfst).
    unfold after_validation. cbn zeta. rewrite Hv.
    cbn [fst snd trace _fa_p _hdr]. eexists. split; [reflexivity |].
    split; [now apply once_rejected | split; reflexivity].
Qed.

Lemma boot_go_measure_path fih_rc rsp (m : machine World) :
  let r := boot_go_measure cfg fih_rc rsp m in
  exists tl,
    trace (snd r) = trace m ++ tl /\
    evidence_path cfg fih_rc rsp (_fa_p m) tl (fst (fst r)) (snd (fst r)) /\
    _fa_p (snd r) = _fa_p m.
Proof.
  pose proof (ev_recorded cfg fih_rc rsp (_fa_p m)) as Hok.
  pose proof (ev_status_failed cfg fih_rc rsp (_fa_p m)) as Hst.
  pose proof (ev_shared_failed cfg fih_rc rsp (_fa_p m)) as Hsh.
  unfold status_calls, shared_calls in *.
  unfold boot_go_measure, boot_go_share.
  destruct (MCUBOOT_MEASURED_BOOT cfg); destruct (MCUBOOT_DATA_SHARING cfg);
    run_calls.
  - destruct (boot_save_boot_status 0 (_hdr m) (_fa_p m) (world m))
      as [rc1 w1].
    destruct (Z.eqb_spec rc1 0) as [-> | H1]; flat_trace.
    + destruct (boot_save_shared_data (_hdr m) (_fa_p m) 0 w1) as [rc2 w2].
      destruct (Z.eqb_spec rc2 0) as [-> | H2]; flat_trace.
      * rewrite boot_go_response_run. flat_trace.
        eexists. split; [reflexivity |]. split; [apply Hok | reflexivity].
      * eexists. split; [reflexivity |].
        split; [now apply Hsh | reflexivity].
    + eexists. split; [reflexivity |].
      split; [now apply Hst | reflexivity].
  - destruct (boot_save_boot_status 0 (_hdr m) (_fa_p m) (world m))
      as [rc1 w1].
    destruct (Z.eqb_spec rc1 0) as [-> | H1]; flat_trace.
    + rewrite boot_go_response_run. flat_trace.
      eexists. split; [reflexivity |]. split; [apply Hok | reflexivity].
    + eexists. split; [reflexivity |].
      split; [now apply Hst | reflexivity].
  - destruct (boot_save_shared_data (_hdr m) (_fa_p m) 0 (world m))
      as [rc2 w2].
    destruct (Z.eqb_spec rc2 0) as [-> | H2]; flat_trace.
    + rewrite boot_go_response_run. flat_trace.
      eexists. split; [reflexivity |]. split; [apply Hok | reflexivity].
    + eexists. split; [reflexivity |].
      split; [now apply Hsh | reflexivity].
  - rewrite boot_go_response_run. flat_trace.
    eexists. split; [reflexivity |]. split; [apply Hok | reflexivity].
Qed.

Lemma boot_go_rejected_path state fih_rc rsp (m : machine World) :
  boot_go_rejected cfg state fih_rc rsp m =
  ((Returned fih_rc, rsp),
   mk_machine
     (flash_area_close (_fa_p m)
        (if MCUBOOT_RAM_LOAD cfg
         then boot_remove_image_from_sram state (world m) else world m))
     (trace m ++ unstage_calls cfg ++ [EvFlashAreaClose (_fa_p m)])
     (_fa_p m) (_hdr m)).
Proof.
  unfold boot_go_rejected, unstage_calls.
  destruct (MCUBOOT_RAM_LOAD cfg); run_calls; rewrite boot_go_out_run;
    flat_trace; reflexivity.
Qed.

Lemma continues_after (rsp : boot_rsp) (m m1 : machine World) a v :
  auth_path cfg (_fa_p m) (_hdr m) a v ->
  trace m1 = trace m ++ a -> _fa_p m1 = _fa_p m ->
  forall state,
  continues cfg rsp m
    ((if FIH_NOT_EQ v FIH_SUCCESS
      then boot_go_rejected cfg state v rsp
      else boot_go_measure cfg v rsp) m1).
Proof.
  intros Ha Ht Hfa state. exists a, v.
  destruct (FIH_NOT_EQ v FIH_SUCCESS) eqn:Hv.
  - rewrite boot_go_rejected_path. cbn [fst snd trace _fa_p].
    exists (unstage_calls cfg ++ [EvFlashAreaClose (_fa_p m)]).
    split; [exact Ha |]. rewrite Ht, Hfa, <- app_assoc.
    split; [reflexivity |]. split; [reflexivity |]. left.
    split; [now apply fih_neq_test | split; reflexivity].
  - destruct (boot_go_measure_path v rsp m1) as (tl & Htl & Hp & Hf).
    exists tl. split; [exact Ha |]. rewrite Htl, Ht, Hf, Hfa, <- app_assoc.
    split; [reflexivity |]. split; [reflexivity |]. right.
    rewrite Hfa in Hp. split; [now apply fih_eq_test | exact Hp].
Qed.

Lemma boot_go_authenticate_path state rsp (m : machine World) :
  continues cfg rsp m (boot_go_authenticate cfg state rsp m).
Proof.
  unfold boot_go_authenticate.
  destruct (MCUBOOT_VALIDATE_PRIMARY_SLOT cfg) eqn:Hv.
  - run_calls. rewrite boot_image_validate_run. cbn zeta.
    destruct (bootutil_img_validate _ (_fa_p m) (world m)) as [res w1].
    cbn [fst snd world trace _fa_p _hdr].
    apply continues_after with
      (a := [EvImgValidate (header_as_validated (_hdr m)) (_fa_p m) res]);
      [now apply auth_always | reflexivity | reflexivity].
  - destruct (MCUBOOT_VALIDATE_PRIMARY_SLOT_ONCE cfg) eqn:Ho.
    + run_calls.
      destruct (validate_once_path (_fa_p m) (_hdr m) m)
        as (a & Ha & Hp & Hfa & Hh).
      destruct (boot_image_validate_once (_fa_p m) (_hdr m) m)
        as [[res h] m1].
      cbn [fst snd] in *.
      apply continues_after with (a := a);
        [now apply auth_once with (h := h) | exact Ha | exact Hfa].
    + change (boot_go_measure cfg FIH_SUCCESS rsp m)
        with ((if false then boot_go_rejected cfg state FIH_SUCCESS rsp
               else boot_go_measure cfg FIH_SUCCESS rsp) m).
      assert (Hf : FIH_NOT_EQ FIH_SUCCESS FIH_SUCCESS = false)
        by (unfold FIH_NOT_EQ; now rewrite Z.eqb_refl).
      rewrite <- Hf.
      apply continues_after with (a := []);
        [now apply auth_skip | now rewrite app_nil_r | reflexivity].
Qed.

Lemma boot_go_stage_path rsp (m : machine World) :
  let r := boot_go_stage cfg rsp m in
  (exists rc3,
      MCUBOOT_RAM_LOAD cfg = true /\ rc3 <> 0 /\
      trace (snd r) =
        trace m ++ [EvLoadImageToSram rc3; EvFlashAreaClose (_fa_p m)] /\
      fst r = (Returned FIH_FAILURE, rsp) /\ _fa_p (snd r) = _fa_p m)
  \/
  (exists m1 : machine World,
      trace m1 = trace m ++ stage_calls cfg /\
      _fa_p m1 = _fa_p m /\ _hdr m1 = _hdr m /\
      continues cfg rsp m1 r).
Proof.
  unfold boot_go_stage, stage_calls. run_calls.
  destruct (MCUBOOT_RAM_LOAD cfg) eqn:Hram.
  - destruct (boot_load_image_to_sram _ (world m)) as [rc w1].
    destruct (Z.eqb_spec rc 0) as [-> | Hrc]; cbn [negb].
    + right. eexists. split; [| split; [| split]].
      4: apply boot_go_authenticate_path.
      all: reflexivity.
    + left. exists rc. rewrite boot_go_out_run. flat_trace.
      repeat split; assumption.
  - right. exists m. rewrite app_nil_r. repeat split.
    apply boot_go_authenticate_path.
Qed.

(** Every run of [boot_go] follows one of the paths of [boot_go_path]. *)
Lemma boot_go_paths rsp (m : machine World) :
  let r := boot_go cfg rsp m in
  let o := fst (flash_area_open (FLASH_AREA_IMAGE_PRIMARY 0)
                  (_fa_p m) (world m)) in
  exists evs,
    trace (snd r) = trace m ++ evs /\
    boot_go_path cfg rsp (fst o) (snd o) evs (fst (fst r)) (snd (fst r)) /\
    _fa_p (snd r) = snd o.
Proof.
  unfold boot_go. run_calls.
  destruct (flash_area_open (FLASH_AREA_IMAGE_PRIMARY 0) (_fa_p m) (world m))
    as [[rc p] w1].
  cbn [fst snd world trace _fa_p _hdr].
  assert (Hgo : (NDEBUG cfg = false /\ rc <> 0 /\
                 negb (NDEBUG cfg) && negb (rc =? 0) = true) \/
                ((NDEBUG cfg = true \/ rc = 0) /\
                 negb (NDEBUG cfg) && negb (rc =? 0) = false)).
  { destruct (NDEBUG cfg); [right; auto |].
    destruct (Z.eqb_spec rc 0); [right; auto | left; auto]. }
  destruct Hgo as [(Hnd & Hrc & ->) | (Hok & ->)].
  { cbn [fst snd trace _fa_p]. eexists. split; [reflexivity |].
    split; [now apply path_assert | reflexivity]. }
  cbn [fst snd world trace _fa_p _hdr].
  destruct (boot_image_load_header p (_hdr m) w1) as [[rc2 h] w2].
  cbn [fst snd world trace _fa_p _hdr].
  destruct (Z.eqb_spec rc2 0) as [-> | Hrc2]; cbn [negb].
  2: { rewrite boot_go_out_run. flat_trace. eexists.
       split; [reflexivity |]. split; [now apply path_header | reflexivity]. }
  match goal with
  | |- context [boot_go_stage cfg ?r ?m1] =>
      destruct (boot_go_stage_path r m1)
        as [(rc3 & Hram & Hrc3 & Ht & Hr & Hfa)
           | (m2 & Ht2 & Hfa2 & Hh2 & a & v & rest & Ha & Ht & Hfa & Hend)]
  end.
  - cbn [trace _fa_p] in Ht, Hfa. rewrite Hr. cbn [fst snd].
    eexists. split; [rewrite Ht, <- !app_assoc; reflexivity |].
    split; [now apply path_stage | exact Hfa].
  - cbn [trace _fa_p _hdr] in Ht2, Hfa2, Hh2.
    rewrite Ht2 in Ht. rewrite Hfa2 in Hfa, Ha, Hend.
    exists ([EvFlashAreaOpen (FLASH_AREA_IMAGE_PRIMARY 0) rc; EvLoadHeader p 0]
            ++ stage_calls cfg ++ a ++ rest).
    split; [rewrite Ht, <- !app_assoc; reflexivity |].
    split; [| exact Hfa].
    destruct Hend as [(Hv & -> & Hr) | (Hv & Hev)].
    + rewrite Hr. cbn [fst snd]. now apply path_rejected with (hdr := _hdr m2).
    + now apply path_passed with (hdr := _hdr m2) (v := v).
Qed.

(** *** How a run ends *)

Lemma attempt_result_prepend rsp pre tl
  (r : (outcome * boot_rsp) * machine World) :
  attempt_result rsp tl r -> attempt_result rsp (pre ++ tl) r.
Proof.
  intros [(Hr & e & HIn & Hf) | Hok]; [left | right; exact Hok].
  split; [exact Hr |]. exists e. split; [| exact Hf].
  apply in_or_app. now right.
Qed.

Lemma once_failure_has_failed_call fa hdr evs res h :
  once_path fa hdr evs res h -> res <> FIH_SUCCESS ->
  exists e, In e evs /\ failed_call e = true.
Proof.
  intros Hp Hne.
  destruct Hp as [rc st Hrc | st Hm Hi | st res Hun Hres | st rc Hg Hrc
                 | st rc Hun Hrc | st Hun]; try (now elim Hne).
  - eexists. split; [left; reflexivity |].
    cbn. now rewrite (eqb_neq_false _ _ Hrc).
  - eexists. split; [right; left; reflexivity |].
    cbn. unfold FIH_NOT_EQ. now rewrite (eqb_neq_false _ _ Hres).
  - eexists. split; [right; right; left; reflexivity |].
    cbn. now rewrite (eqb_neq_false _ _ Hrc).
  - exists (EvWriteImageOk fa rc). split.
    + apply in_or_app. right. apply in_or_app. right. now left.
    + cbn. now rewrite (eqb_neq_false _ _ Hrc).
Qed.

Lemma auth_failure_has_failed_call fa hdr a v :
  auth_path cfg fa hdr a v -> v <> FIH_SUCCESS ->
  exists e, In e a /\ failed_call e = true.
Proof.
  intros Hp Hne. destruct Hp as [res Hv | evs res h Hv Ho Hp | Hv Ho].
  - eexists. split; [left; reflexivity |].
    cbn. unfold FIH_NOT_EQ. now rewrite (eqb_neq_false _ _ Hne).
  - eapply once_failure_has_failed_call; eassumption.
  - now elim Hne.
Qed.

Lemma boot_go_measure_attempt rsp (m : machine World) :
  let r := boot_go_measure cfg FIH_SUCCESS rsp m in
  exists tl, trace (snd r) = trace m ++ tl /\ attempt_result rsp tl r.
Proof.
  assert (Hfail : forall rc, rc <> 0 -> negb (rc =? 0) = true)
    by (intros rc Hrc; now rewrite (eqb_neq_false _ _ Hrc)).
  unfold boot_go_measure, boot_go_share.
  destruct (MCUBOOT_MEASURED_BOOT cfg); destruct (MCUBOOT_DATA_SHARING cfg);
    run_calls.
  - destruct (boot_save_boot_status 0 (_hdr m) (_fa_p m) (world m))
      as [rc1 w1].
    destruct (Z.eqb_spec rc1 0) as [-> | H1]; flat_trace.
    + destruct (boot_save_shared_data (_hdr m) (_fa_p m) 0 w1) as [rc2 w2].
      destruct (Z.eqb_spec rc2 0) as [-> | H2]; flat_trace.
      * rewrite boot_go_response_run. flat_trace.
        eexists. split; [reflexivity |]. right.
        split; [reflexivity |]. exists w2. split; reflexivity.
      * eexists. split; [reflexivity |]. left. split; [reflexivity |].
        exists (EvSaveSharedData rc2).
        split; [right; left; reflexivity | now apply Hfail].
    + eexists. split; [reflexivity |]. left. split; [reflexivity |].
      exists (EvSaveBootStatus rc1).
      split; [left; reflexivity | now apply Hfail].
  - destruct (boot_save_boot_status 0 (_hdr m) (_fa_p m) (world m))
      as [rc1 w1].
    destruct (Z.eqb_spec rc1 0) as [-> | H1]; flat_trace.
    + rewrite boot_go_response_run. flat_trace.
      eexists. split; [reflexivity |]. right.
      split; [reflexivity |]. exists w1. split; reflexivity.
    + eexists. split; [reflexivity |]. left. split; [reflexivity |].
      exists (EvSaveBootStatus rc1).
      split; [left; reflexivity | now apply Hfail].
  - destruct (boot_save_shared_data (_hdr m) (_fa_p m) 0 (world m))
      as [rc2 w2].
    destruct (Z.eqb_spec rc2 0) as [-> | H2]; flat_trace.
    + rewrite boot_go_response_run. flat_trace.
      eexists. split; [reflexivity |]. right.
      split; [reflexivity |]. exists w2. split; reflexivity.
    + eexists. split; [reflexivity |]. left. split; [reflexivity |].
      exists (EvSaveSharedData rc2).
      split; [left; reflexivity | now apply Hfail].
  - rewrite boot_go_response_run. flat_trace.
    eexists. split; [reflexivity |]. right.
    split; [reflexivity |]. exists (world m). split; reflexivity.
Qed.

Lemma attempt_after (rsp : boot_rsp) (m m1 : machine World) a v :
  auth_path cfg (_fa_p m) (_hdr m) a v ->
  trace m1 = trace m ++ a ->
  forall state,
  let r := (if FIH_NOT_EQ v FIH_SUCCESS
            then boot_go_rejected cfg state v rsp
            else boot_go_measure cfg v rsp) m1 in
  exists evs, trace (snd r) = trace m ++ evs /\ attempt_result rsp evs r.
Proof.
  intros Ha Ht state. cbv zeta.
  destruct (FIH_NOT_EQ v FIH_SUCCESS) eqn:Hv.
  - apply fih_neq_test in Hv.
    destruct (auth_failure_has_failed_call _ _ _ _ Ha Hv) as (e & HIn & Hf).
    rewrite boot_go_rejected_path. cbn [fst snd trace].
    exists (a ++ unstage_calls cfg ++ [EvFlashAreaClose (_fa_p m1)]).
    split; [rewrite Ht, <- app_assoc; reflexivity |].
    left. split; [reflexivity |]. exists e. split; [| exact Hf].
    apply in_or_app. now left.
  - apply fih_eq_test in Hv. subst v.
    destruct (boot_go_measure_attempt rsp m1) as (tl & Htl & Hr).
    exists (a ++ tl). split; [rewrite Htl, Ht, <- app_assoc; reflexivity |].
    now apply attempt_result_prepend.
Qed.

Lemma boot_go_authenticate_attempt state rsp (m : machine World) :
  let r := boot_go_authenticate cfg state rsp m in
  exists evs, trace (snd r) = trace m ++ evs /\ attempt_result rsp evs r.
Proof.
  unfold boot_go_authenticate.
  destruct (MCUBOOT_VALIDATE_PRIMARY_SLOT cfg) eqn:Hv.
  - run_calls. rewrite boot_image_validate_run. cbn zeta.
    destruct (bootutil_img_validate _ (_fa_p m) (world m)) as [res w1].
    cbn [fst snd world trace _fa_p _hdr].
    apply attempt_after with
      (a := [EvImgValidate (header_as_validated (_hdr m)) (_fa_p m) res]);
      [now apply auth_always | reflexivity].
  - destruct (MCUBOOT_VALIDATE_PRIMARY_SLOT_ONCE cfg) eqn:Ho.
    + run_calls.
      destruct (validate_once_path (_fa_p m) (_hdr m) m)
        as (a & Ha & Hp & Hfa & Hh).
      destruct (boot_image_validate_once (_fa_p m) (_hdr m) m)
        as [[res h] m1].
      cbn [fst snd] in *.
      apply attempt_after with (a := a);
        [now apply auth_once with (h := h) | exact Ha].
    + destruct (boot_go_measure_attempt rsp m) as (tl & Htl & Hr).
      exists tl. split; assumption.
Qed.

Lemma boot_go_stage_attempt rsp (m : machine World) :
  let r := boot_go_stage cfg rsp m in
  exists evs, trace (snd r) = trace m ++ evs /\ attempt_result rsp evs r.
Proof.
  unfold boot_go_stage. run_calls.
  destruct (MCUBOOT_RAM_LOAD cfg); [| apply boot_go_authenticate_attempt].
  destruct (boot_load_image_to_sram _ (world m)) as [rc w1].
  destruct (Z.eqb_spec rc 0) as [-> | Hrc]; cbn [negb].
  - match goal with
    | |- context [boot_go_authenticate cfg ?st ?r ?m1] =>
        destruct (boot_go_authenticate_attempt st r m1) as (evs & Ht & Hr)
    end.
    cbn [trace] in Ht. exists ([EvLoadImageToSram 0] ++ evs).
    split; [rewrite Ht, <- app_assoc; reflexivity |].
    now apply attempt_result_prepend.
  - rewrite boot_go_out_run. flat_trace. eexists.
    split; [reflexivity |]. left. split; [reflexivity |].
    exists (EvLoadImageToSram rc). split; [left; reflexivity |].
    cbn. now rewrite (eqb_neq_false _ _ Hrc).
Qed.

(** Every run of [boot_go] ends in one of the two ways of
    [attempt_result]. *)
Lemma boot_go_attempt rsp (m : machine World) :
  let r := boot_go cfg rsp m in
  attempt_result rsp (since m (snd r)) r.
Proof.
  cbv zeta.
  assert (H : exists evs,
             trace (snd (boot_go cfg rsp m)) = trace m ++ evs /\
             attempt_result rsp evs (boot_go cfg rsp m)).
  2: { destruct H as (evs & Ht & Hr).
       now rewrite (since_trace _ _ _ Ht). }
  unfold boot_go. run_calls.
  destruct (flash_area_open (FLASH_AREA_IMAGE_PRIMARY 0) (_fa_p m) (world m))
    as [[rc p] w1].
  cbn [fst snd world trace _fa_p _hdr].
  destruct (negb (NDEBUG cfg) && negb (rc =? 0)) eqn:Hassert.
  { cbn [fst snd trace]. eexists. split; [reflexivity |].
    left. split; [reflexivity |].
    exists (EvFlashAreaOpen (FLASH_AREA_IMAGE_PRIMARY 0) rc).
    split; [left; reflexivity |].
    cbn. apply andb_prop in Hassert. tauto. }
  cbn [fst snd world trace _fa_p _hdr].
  destruct (boot_image_load_header p (_hdr m) w1) as [[rc2 h] w2].
  cbn [fst snd world trace _fa_p _hdr].
  destruct (Z.eqb_spec rc2 0) as [-> | Hrc2]; cbn [negb].
  2: { rewrite boot_go_out_run. flat_trace. eexists.
       split; [reflexivity |]. left. split; [reflexivity |].
       exists (EvLoadHeader p rc2). split; [right; left; reflexivity |].
       cbn. now rewrite (eqb_neq_false _ _ Hrc2). }
  match goal with
  | |- context [boot_go_stage cfg ?r ?m1] =>
      destruct (boot_go_stage_attempt r m1) as (evs & Ht & Hr)
  end.
  cbn [trace] in Ht.
  exists ([EvFlashAreaOpen (FLASH_AREA_IMAGE_PRIMARY 0) rc; EvLoadHeader p 0]
          ++ evs).
  split; [rewrite Ht, <- !app_assoc; reflexivity |].
  now apply attempt_result_prepend.
Qed.

End Paths.

(** * Further properties of the three functions *)

Lemma clear_flags_bit (flags mask n : Z) :
  0 <= flags < 2 ^ 32 -> 0 <= n ->
  Z.testbit (clear_flags flags mask) n =
  Z.testbit flags n && negb (Z.testbit mask n).
Proof.
  intros Hf Hn. unfold clear_flags. rewrite Z.land_spec.
  destruct (Z.ltb_spec n 32) as [Hlt | Hge].
  - rewrite Z.mod_pow2_bits_low by lia.
    rewrite Z.lnot_spec by lia. reflexivity.
  - rewrite Z.mod_pow2_bits_high by lia.
    replace (Z.testbit flags n) with false; [reflexivity |].
    symmetry. rewrite <- (Z.mod_small flags (2 ^ 32)) by lia.
    apply Z.mod_pow2_bits_high. lia.
Qed.

Ltac expand_calls :=
  unfold stage_calls, unstage_calls, status_calls, shared_calls,
    magic_write in *;
  repeat match goal with
         | |- context [if ?b then _ else _] =>
             destruct b eqn:?; try discriminate
         | H : context [if ?b then _ else _] |- _ =>
             destruct b eqn:?; try discriminate
         end;
  cbn [app] in *.

Ltac invert_once H :=
  inversion H; subst; clear H.

Ltac invert_auth H :=
  inversion H; subst; clear H;
  try match goal with
      | Ho : once_path _ _ _ _ _ |- _ => invert_once Ho
      end.

Ltac in_cases H :=
  cbn [In app] in H;
  repeat (destruct H as [H | H];
          [try discriminate H; inversion H; subst; try clear H |]);
  try contradiction.

(* Evaluate a statement about the return codes of a concrete call list,
   using the facts [x <> y] at hand. *)
Ltac eval_codes H :=
  unfold absent, failed_call, FIH_NOT_EQ in H;
  cbn [forallb negb andb first_evidence_failure evidence_rc] in H;
  repeat match goal with
         | Hn : ?x <> ?y |- _ =>
             rewrite (eqb_neq_false x y Hn) in H
         end;
  rewrite ?Z.eqb_refl in H;
  cbn [forallb negb andb first_evidence_failure evidence_rc] in H;
  repeat match type of H with
         | context [?x =? ?y] => destruct (Z.eqb_spec x y)
         end;
  cbn [forallb negb andb first_evidence_failure evidence_rc] in H;
  try discriminate H.

Ltac split_suffix :=
  match goal with
  | |- exists pre, ?l = _ =>
      first [ exists (firstn 1 l); reflexivity
            | exists (firstn 2 l); reflexivity
            | exists (firstn 3 l); reflexivity
            | exists (firstn 4 l); reflexivity
            | exists (firstn 5 l); reflexivity
            | exists (firstn 6 l); reflexivity
            | exists (firstn 7 l); reflexivity
            | exists (firstn 8 l); reflexivity ]
  end.

Ltac invert_path H :=
  inversion H; subst; clear H;
  try match goal with
      | Ha : auth_path _ _ _ _ _ |- _ => invert_auth Ha
      end;
  try match goal with
      | He : evidence_path _ _ _ _ _ _ _ |- _ =>
          inversion He; subst; clear He
      end.

Section Consequences.

Context {World : Type} {HD : Headers} {CO : Collaborators World}.

(** ** [boot_image_validate] *)

(** X1.  [boot_image_validate] changes nothing of the header but the
    encryption bits of [ih_flags]: a header whose flag is not set comes
    back as it was; otherwise every bit outside [ENCRYPTIONFLAGS] keeps its
    value, every bit of [ENCRYPTIONFLAGS] is cleared, the field stays a
    32-bit value and the other fields are untouched. *)
Theorem validate_touches_only_encryption_bits fa hdr (m : machine World) :
  0 <= ih_flags hdr < 2 ^ 32 ->
  let h' := snd (fst (boot_image_validate fa hdr m)) in
  (IS_ENCRYPTED hdr = false -> h' = hdr) /\
  ih_rest h' = ih_rest hdr /\
  0 <= ih_flags h' < 2 ^ 32 /\
  (forall n, 0 <= n -> Z.testbit ENCRYPTIONFLAGS n = false ->
             Z.testbit (ih_flags h') n = Z.testbit (ih_flags hdr) n) /\
  (IS_ENCRYPTED hdr = true ->
   forall n, 0 <= n -> Z.testbit ENCRYPTIONFLAGS n = true ->
             Z.testbit (ih_flags h') n = false).
Proof.
  intros Hf h'. subst h'. rewrite boot_image_validate_run. cbn zeta.
  cbn [fst snd]. unfold header_as_validated.
  destruct (IS_ENCRYPTED hdr); cbn [with_flags ih_flags ih_rest].
  - split; [discriminate |]. split; [reflexivity |].
    split; [apply clear_flags_range |]. split.
    + intros n Hn Hb. rewrite clear_flags_bit, Hb by assumption.
      apply andb_true_r.
    + intros _ n Hn Hb. rewrite clear_flags_bit, Hb by assumption.
      apply andb_false_r.
  - repeat split; try exact (proj1 Hf); try exact (proj2 Hf).
    discriminate.
Qed.

(** ** [boot_image_validate_once] *)

(** X2.  [boot_image_validate_once] returns one of the two sentinels: a
    validator result other than [FIH_SUCCESS] is replaced by
    [FIH_FAILURE], never handed back as it is. *)
Theorem validate_once_returns_a_sentinel fa hdr (m : machine World) :
  let r := boot_image_validate_once fa hdr m in
  fst (fst r) = FIH_SUCCESS \/ fst (fst r) = FIH_FAILURE.
Proof.
  cbv zeta.
  destruct (validate_once_path fa hdr m) as (evs & _ & Hp & _).
  destruct Hp; auto.
Qed.

Ltac eval_calls :=
  unfold absent, failed_call, FIH_NOT_EQ; cbn [forallb negb andb];
  repeat match goal with
         | H : ?x <> ?y |- context [?x =? ?y] =>
             rewrite (eqb_neq_false x y H)
         end;
  rewrite ?Z.eqb_refl; cbn [forallb negb andb].

(** X3.  When the two sentinels differ, [boot_image_validate_once] returns
    [FIH_SUCCESS] exactly when none of the calls it made reported an
    error. *)
Theorem validate_once_succeeds_iff_no_call_failed fa hdr (m : machine World) :
  FIH_FAILURE <> FIH_SUCCESS ->
  let r := boot_image_validate_once fa hdr m in
  fst (fst r) = FIH_SUCCESS <-> absent failed_call (since m (snd r)).
Proof.
  intros Hne. cbv zeta.
  destruct (validate_once_path fa hdr m) as (evs & Ht & Hp & _).
  rewrite (since_trace _ _ _ Ht).
  destruct Hp; expand_calls; eval_calls;
    split; intros; try reflexivity; try contradiction; try discriminate.
Qed.

(** X4.  When the two sentinels differ, a return of [FIH_SUCCESS] from
    [boot_image_validate_once] has one of two histories: the record was
    read back as trusted and nothing else was called; or the record was
    unverified, the validator returned [FIH_SUCCESS], the magic was written
    if it was missing, and the last call, [boot_write_image_ok], returned
    0. *)
Theorem validate_once_success_history fa hdr (m : machine World) :
  FIH_FAILURE <> FIH_SUCCESS ->
  let r := boot_image_validate_once fa hdr m in
  fst (fst r) = FIH_SUCCESS ->
  (exists st,
      since m (snd r) = [EvReadSwapState fa 0 st] /\
      magic st = BOOT_MAGIC_GOOD /\ image_ok st = BOOT_FLAG_SET)
  \/
  (exists st,
      unverified st /\
      since m (snd r) =
        [EvReadSwapState fa 0 st;
         EvImgValidate (header_as_validated hdr) fa FIH_SUCCESS]
        ++ magic_write fa st ++ [EvWriteImageOk fa 0]).
Proof.
  intros Hne. cbv zeta.
  destruct (validate_once_path fa hdr m) as (evs & Ht & Hp & _).
  rewrite (since_trace _ _ _ Ht).
  destruct Hp; intros Hs; try (now elim Hne).
  - left. eauto.
  - right. eauto.
Qed.

Ltac each_call H :=
  cbn [In] in H;
  repeat (destruct H as [H | H]; [subst |]); try contradiction.

(** X5.  In every run of [boot_image_validate_once] the first call is the
    read of the swap state, which is not repeated; the calls follow the
    order read, validate, write magic, write [image_ok], each made at most
    once; a trust-store write is made only after the validator returned
    [FIH_SUCCESS] in this run; the magic is not written when it was read as
    [BOOT_MAGIC_GOOD]; and every call is made on the region passed in. *)
Theorem validate_once_call_discipline fa hdr (m : machine World) :
  let r := boot_image_validate_once fa hdr m in
  let evs := since m (snd r) in
  (exists rc st rest,
      evs = EvReadSwapState fa rc st :: rest /\
      absent is_trust_read rest /\
      (magic st = BOOT_MAGIC_GOOD -> absent is_write_magic rest)) /\
  ascending (map call_rank evs) = true /\
  (forall e, In e evs -> is_trust_write e = true ->
             In (EvImgValidate (header_as_validated hdr) fa FIH_SUCCESS) evs) /\
  (forall e, In e evs -> region_of e = Some fa).
Proof.
  cbv zeta.
  destruct (validate_once_path fa hdr m) as (evs & Ht & Hp & _).
  rewrite (since_trace _ _ _ Ht).
  destruct Hp as [rc st Hrc | st Hm Hi | st res Hun Hres | st rc Hg Hrc
                 | st rc Hun Hrc | st Hun];
    unfold magic_write;
    try (destruct (Z.eqb_spec (magic st) BOOT_MAGIC_GOOD) as [Hgood | Hbad]);
    cbn [app].
  all: split; [do 3 eexists; split; [reflexivity |];
               split; [reflexivity |]; intros Hgm; try reflexivity;
               try contradiction |].
  all: split; [reflexivity |].
  all: split; intros e HIn; [intros Hw |]; each_call HIn;
    try discriminate; try reflexivity; cbn [In]; auto 10.
Qed.

(** X6.  [boot_image_validate_once] hands the header back untouched when
    it does not call the validator (read error or trusted record), so the
    encryption flag is then still set; when it calls the validator the
    header comes back as [boot_image_validate] left it. *)
Theorem validate_once_header fa hdr (m : machine World) :
  let r := boot_image_validate_once fa hdr m in
  let evs := since m (snd r) in
  (count is_img_validate evs = 0%nat /\ snd (fst r) = hdr) \/
  (count is_img_validate evs = 1%nat /\
   snd (fst r) = header_as_validated hdr).
Proof.
  cbv zeta.
  destruct (validate_once_path fa hdr m) as (evs & Ht & Hp & _).
  rewrite (since_trace _ _ _ Ht).
  destruct Hp; expand_calls; auto.
Qed.

(** ** [boot_go] *)

Ltac boot_go_cases cfg rsp m :=
  let H := fresh "H" in
  pose proof (boot_go_paths cfg rsp m) as H; cbv zeta in H;
  let rc := fresh "rc" in
  let p := fresh "p" in
  let w1 := fresh "w1" in
  let out := fresh "out" in
  let rsp' := fresh "rsp'" in
  let m' := fresh "m'" in
  destruct (flash_area_open (FLASH_AREA_IMAGE_PRIMARY 0) (_fa_p m) (world m))
    as [[rc p] w1];
  destruct (boot_go cfg rsp m) as [[out rsp'] m'];
  cbn [fst snd] in *;
  let evs := fresh "evs" in
  let Ht := fresh "Ht" in
  let Hp := fresh "Hp" in
  let Hfa := fresh "Hfa" in
  destruct H as (evs & Ht & Hp & Hfa);
  rewrite ?(since_trace _ _ _ Ht) in *;
  invert_path Hp; expand_calls;
  repeat match goal with
         | Heq : FIH_FAILURE = FIH_SUCCESS |- _ =>
             try rewrite Heq in *; clear Heq
         end.

(** X7.  In every run of [boot_go], under every configuration, the calls
    are made in the order of the source text, each collaborator at most
    once (nothing is retried), and the first call is [flash_area_open] on
    [FLASH_AREA_IMAGE_PRIMARY(0)]. *)
Theorem boot_go_call_order cfg rsp (m : machine World) :
  let r := boot_go cfg rsp m in
  let evs := since m (snd r) in
  ascending (map call_rank evs) = true /\
  exists rc rest,
    evs = EvFlashAreaOpen (FLASH_AREA_IMAGE_PRIMARY 0) rc :: rest.
Proof.
  cbv zeta. boot_go_cases cfg rsp m.
  all: split; [reflexivity | eauto].
Qed.

(** X8.  When [boot_image_load_header] returns nonzero, the run consists
    of the open, the header load and the close: nothing is staged or
    validated, [boot_go] returns [FIH_FAILURE] and the response is left as
    it was. *)
Theorem header_load_failure_ends_attempt cfg rsp (m : machine World) fa rc2 :
  let r := boot_go cfg rsp m in
  let evs := since m (snd r) in
  In (EvLoadHeader fa rc2) evs -> rc2 <> 0 ->
  fst r = (Returned FIH_FAILURE, rsp) /\
  exists rc,
    evs = [EvFlashAreaOpen (FLASH_AREA_IMAGE_PRIMARY 0) rc;
           EvLoadHeader fa rc2; EvFlashAreaClose fa].
Proof.
  cbv zeta. intros HIn Hne. revert HIn. boot_go_cases cfg rsp m.
  all: intros HIn; in_cases HIn; eauto.
Qed.

(** X9.  When [boot_load_image_to_sram] returns nonzero, the run ends with
    that call and the close: the validator is not called, the staged image
    is not removed, [boot_go] returns [FIH_FAILURE] and the response is left
    as it was. *)
Theorem staging_failure_ends_attempt cfg rsp (m : machine World) rc3 :
  let r := boot_go cfg rsp m in
  let evs := since m (snd r) in
  In (EvLoadImageToSram rc3) evs -> rc3 <> 0 ->
  fst r = (Returned FIH_FAILURE, rsp) /\
  exists rc fa,
    evs = [EvFlashAreaOpen (FLASH_AREA_IMAGE_PRIMARY 0) rc;
           EvLoadHeader fa 0; EvLoadImageToSram rc3; EvFlashAreaClose fa].
Proof.
  cbv zeta. intros HIn Hne. revert HIn. boot_go_cases cfg rsp m.
  all: intros HIn; in_cases HIn; eauto.
Qed.

(** X10.  [boot_remove_image_from_sram] is called exactly in the runs in
    which the image was staged ([boot_load_image_to_sram] returned 0), no
    evidence-recording call was made and [boot_go] returns a value other
    than [FIH_SUCCESS], that is, when the validation step refused a staged
    image.  It is then called once, immediately before the close that ends
    the run, and the response is left as it was. *)
Theorem staged_image_removed_iff_rejected cfg rsp (m : machine World) :
  let r := boot_go cfg rsp m in
  let evs := since m (snd r) in
  (In EvRemoveImageFromSram evs <->
   In (EvLoadImageToSram 0) evs /\ absent is_evidence evs /\
   exists v, fst (fst r) = Returned v /\ v <> FIH_SUCCESS) /\
  (In EvRemoveImageFromSram evs ->
   count is_remove_sram evs = 1%nat /\ snd (fst r) = rsp /\
   exists pre fa,
     evs = pre ++ [EvRemoveImageFromSram; EvFlashAreaClose fa]).
Proof.
  cbv zeta. boot_go_cases cfg rsp m.
  all: split;
    [split; [intros HIn | intros (HIn & Hab & v' & Hr & Hv')] | intros HIn].
  all: in_cases HIn.
  all: try congruence.
  all: try (cbv in Hab; discriminate Hab).
  all: try (cbn [In]; auto 12; fail).
  all: try (split; [cbn [In]; auto 12 |]; split; [reflexivity |];
            eexists; split; [reflexivity | assumption]).
  all: split; [reflexivity |]; split; [reflexivity |].
  all: match goal with
       | |- exists pre fa, ?l = _ =>
           first [ exists (firstn 2 l); eexists; reflexivity
                 | exists (firstn 3 l); eexists; reflexivity
                 | exists (firstn 4 l); eexists; reflexivity
                 | exists (firstn 5 l); eexists; reflexivity
                 | exists (firstn 6 l); eexists; reflexivity
                 | exists (firstn 7 l); eexists; reflexivity
                 | exists (firstn 8 l); eexists; reflexivity ]
       end.
Qed.

(** X11.  In always-validate mode a validator result other than
    [FIH_SUCCESS] is what [boot_go] returns (the raw value, not
    [FIH_FAILURE]); no evidence is recorded, the response is left as it
    was, and the run ends with the removal of the staged image (when
    [MCUBOOT_RAM_LOAD] is defined) and the close of the region. *)
Theorem always_validate_returns_validator_result cfg rsp (m : machine World)
  h fa res :
  MCUBOOT_VALIDATE_PRIMARY_SLOT cfg = true ->
  let r := boot_go cfg rsp m in
  let evs := since m (snd r) in
  In (EvImgValidate h fa res) evs -> res <> FIH_SUCCESS ->
  fst r = (Returned res, rsp) /\
  absent is_evidence evs /\
  exists pre, evs = pre ++ unstage_calls cfg ++ [EvFlashAreaClose fa].
Proof.
  cbv zeta. intros Hval HIn Hne. revert HIn. boot_go_cases cfg rsp m.
  all: intros HIn; in_cases HIn; try congruence.
  all: split; [reflexivity |]; split; [reflexivity | split_suffix].
Qed.

(** X12.  Without always-validate mode, and when no evidence-recording
    call failed, the value [boot_go] returns is one of the two sentinels. *)
Theorem without_always_validate_returns_sentinel cfg rsp (m : machine World)
  v :
  MCUBOOT_VALIDATE_PRIMARY_SLOT cfg = false ->
  let r := boot_go cfg rsp m in
  let evs := since m (snd r) in
  fst (fst r) = Returned v ->
  first_evidence_failure evs = None ->
  v = FIH_SUCCESS \/ v = FIH_FAILURE.
Proof.
  cbv zeta. intros Hval Hr Hnone. revert Hr Hnone.
  boot_go_cases cfg rsp m.
  all: intros Hr Hnone; try congruence.
  all: try (inversion Hr; subst; auto; fail).
  all: eval_codes Hnone.
Qed.

(** X13.  In always-validate mode [boot_go] never reads or writes the
    trust record, also when [MCUBOOT_VALIDATE_PRIMARY_SLOT_ONCE] is defined
    as well: the [#ifdef] of line 138 takes precedence over the [#elif]. *)
Theorem always_validate_ignores_trust_store cfg rsp (m : machine World) :
  MCUBOOT_VALIDATE_PRIMARY_SLOT cfg = true ->
  let r := boot_go cfg rsp m in
  absent is_trust_access (since m (snd r)).
Proof.
  cbv zeta. intros Hval. boot_go_cases cfg rsp m.
  all: try congruence.
  all: reflexivity.
Qed.

(** X14.  In a build with neither validation option [boot_go] never calls
    the validator and never touches the trust record. *)
Theorem no_validation_mode_calls_no_validator cfg rsp (m : machine World) :
  MCUBOOT_VALIDATE_PRIMARY_SLOT cfg = false ->
  MCUBOOT_VALIDATE_PRIMARY_SLOT_ONCE cfg = false ->
  let r := boot_go cfg rsp m in
  absent is_img_validate (since m (snd r)) /\
  absent is_trust_access (since m (snd r)).
Proof.
  cbv zeta. intros Hval Honce. boot_go_cases cfg rsp m.
  all: try congruence.
  all: split; reflexivity.
Qed.

(** X15.  In always-validate mode, when the two sentinels differ, a
    return value equal to [FIH_SUCCESS] means that the validator was called
    in this run and returned [FIH_SUCCESS]. *)
Theorem always_validate_success_was_validated cfg rsp (m : machine World) :
  MCUBOOT_VALIDATE_PRIMARY_SLOT cfg = true ->
  FIH_FAILURE <> FIH_SUCCESS ->
  let r := boot_go cfg rsp m in
  fst (fst r) = Returned FIH_SUCCESS ->
  exists h fa, In (EvImgValidate h fa FIH_SUCCESS) (since m (snd r)).
Proof.
  cbv zeta. intros Hval Hne Hr. revert Hr. boot_go_cases cfg rsp m.
  all: intros Hr; try congruence.
  all: do 2 eexists; cbn [In]; auto 12.
Qed.

(** X16.  In validate-once mode, when the two sentinels differ, a return
    value equal to [FIH_SUCCESS] means that in this run either the trust
    record was read back as trusted and the validator was not called, or
    the validator returned [FIH_SUCCESS] and [boot_write_image_ok]
    returned 0. *)
Theorem validate_once_success_was_trusted_or_validated cfg rsp
  (m : machine World) :
  MCUBOOT_VALIDATE_PRIMARY_SLOT cfg = false ->
  MCUBOOT_VALIDATE_PRIMARY_SLOT_ONCE cfg = true ->
  FIH_FAILURE <> FIH_SUCCESS ->
  let r := boot_go cfg rsp m in
  let evs := since m (snd r) in
  fst (fst r) = Returned FIH_SUCCESS ->
  (exists fa st,
      In (EvReadSwapState fa 0 st) evs /\
      magic st = BOOT_MAGIC_GOOD /\ image_ok st = BOOT_FLAG_SET /\
      absent is_img_validate evs)
  \/
  (exists h fa,
      In (EvImgValidate h fa FIH_SUCCESS) evs /\
      In (EvWriteImageOk fa 0) evs).
Proof.
  cbv zeta. intros Hval Honce Hne Hr. revert Hr. boot_go_cases cfg rsp m.
  all: intros Hr; try congruence.
  all: first
    [ left; do 2 eexists; split; [cbn [In]; auto 12 |];
      split; [eassumption |]; split; [eassumption | reflexivity]
    | right; do 2 eexists; split; cbn [In]; auto 12 ].
Qed.

Lemma absent_not_in (p : event -> bool) l e :
  absent p l -> In e l -> p e = true -> False.
Proof.
  unfold absent. intros Hab HIn Hp.
  rewrite forallb_forall in Hab. specialize (Hab e HIn).
  rewrite Hp in Hab. discriminate.
Qed.

Lemma no_failed_call_closes_once cfg rsp (m : machine World) :
  let r := boot_go cfg rsp m in
  let evs := since m (snd r) in
  absent failed_call evs -> count is_close evs = 1%nat.
Proof.
  cbv zeta. intros Hab. revert Hab. boot_go_cases cfg rsp m.
  all: intros Hab; try congruence; eval_codes Hab.
  all: reflexivity.
Qed.

(** X17.  When no call of a run of [boot_go] reported an error, [boot_go]
    returns [FIH_SUCCESS], the response holds the address of [_hdr] and the
    device id and offset that [flash_area_get_device_id] and
    [flash_area_get_off] answer for the region in [_fa_p] in the world in
    which the region is then closed, and the region was closed once. *)
Theorem boot_go_succeeds_when_no_call_failed cfg rsp (m : machine World) :
  let r := boot_go cfg rsp m in
  let evs := since m (snd r) in
  absent failed_call evs ->
  fst (fst r) = Returned FIH_SUCCESS /\
  (exists w,
      world (snd r) = flash_area_close (_fa_p (snd r)) w /\
      snd (fst r) = response_for (_fa_p (snd r)) w) /\
  count is_close evs = 1%nat.
Proof.
  cbv zeta. intros Hab.
  destruct (boot_go_attempt cfg rsp m) as [(_ & e & HIn & Hf) | (Hs & Hw)].
  - exfalso. exact (absent_not_in _ _ _ Hab HIn Hf).
  - split; [exact Hs |]. split; [exact Hw |].
    now apply no_failed_call_closes_once.
Qed.

(** X22.  The response is either left exactly as the caller supplied it,
    or [boot_go] returns [FIH_SUCCESS] and the response holds the address
    of [_hdr] and the device id and offset read for the region in [_fa_p]
    in the world in which the region is then closed.  So whenever
    [boot_go] does not return [FIH_SUCCESS] (failed assertion included) the
    response is unmodified. *)
Theorem response_written_only_on_success cfg rsp (m : machine World) :
  let r := boot_go cfg rsp m in
  (snd (fst r) = rsp \/
   (fst (fst r) = Returned FIH_SUCCESS /\
    exists w,
      world (snd r) = flash_area_close (_fa_p (snd r)) w /\
      snd (fst r) = response_for (_fa_p (snd r)) w)) /\
  (fst (fst r) <> Returned FIH_SUCCESS -> snd (fst r) = rsp).
Proof.
  cbv zeta.
  destruct (boot_go_attempt cfg rsp m) as [(Hr & _) | (Hs & Hw)].
  - split; [now left | intros _; exact Hr].
  - split; [right; split; assumption | intros Hne; now elim Hne].
Qed.

(** X18.  Every call of a run of [boot_go] that takes a region is made on
    the pointer that [flash_area_open] stored in [_fa_p], also when the
    open failed and the run went on (see C7). *)
Theorem boot_go_uses_the_opened_region cfg rsp (m : machine World) :
  let r := boot_go cfg rsp m in
  _fa_p (snd r) =
    snd (fst (flash_area_open (FLASH_AREA_IMAGE_PRIMARY 0)
                (_fa_p m) (world m))) /\
  forall e fa, In e (since m (snd r)) -> region_of e = Some fa ->
               fa = _fa_p (snd r).
Proof.
  cbv zeta. boot_go_cases cfg rsp m.
  all: split; [reflexivity |].
  all: intros e fa HIn Hreg; in_cases HIn; cbn in Hreg; congruence.
Qed.

(** X19.  When the two sentinels differ, evidence is recorded only in runs
    in which every earlier call succeeded: if a run contains a measured-boot
    or shared-data call, then the only calls of the run that reported an
    error are evidence-recording calls and, in a build with [NDEBUG],
    possibly [flash_area_open]. *)
Theorem evidence_only_after_success cfg rsp (m : machine World) e e' :
  FIH_FAILURE <> FIH_SUCCESS ->
  let r := boot_go cfg rsp m in
  let evs := since m (snd r) in
  In e evs -> is_evidence e = true ->
  In e' evs -> failed_call e' = true ->
  is_evidence e' = true \/ (is_open e' = true /\ NDEBUG cfg = true).
Proof.
  cbv zeta. intros Hne He Hev He' Hf. revert He He'.
  boot_go_cases cfg rsp m.
  all: intros He He'; try congruence.
  all: in_cases He; try discriminate Hev.
  all: in_cases He'; try (left; reflexivity); eval_codes Hf.
  all: match goal with
       | Hok : NDEBUG _ = true \/ _ = 0 |- _ =>
           destruct Hok as [Hok | Hok]; [right; split; [reflexivity | exact Hok] |]
       end.
  all: subst; congruence.
Qed.

End Consequences.

(** * Runs on the reference platform *)

Section ReferenceRuns.

#[local] Existing Instance mcuboot_headers.
#[local] Existing Instance board_collaborators.

(** The reference trust state store honours the contract. *)
Lemma board_store_contract : trust_store_contract board_stored.
Proof.
  constructor; unfold board_stored; cbn.
  - intros fa st0 b st b' [= Hrc <- <-]. rewrite Hrc. cbn. auto.
  - intros fa st0 b r b' [= _ <-]. reflexivity.
  - intros hdr fa b r b' [= _ <-]. reflexivity.
  - intros fa b rc b' [= <- <-].
    destruct (Z.eqb_spec (bd_write_magic_rc b) 0) as [Hz | Hnz]; cbn.
    + auto.
    + split; [reflexivity |]. intros [H | H]; [contradiction | exact H].
  - intros fa b rc b' [= <- <-].
    destruct (Z.eqb_spec (bd_write_image_ok_rc b) 0) as [Hz | Hnz]; cbn.
    + auto.
    + split; [reflexivity |]. intros [H | H]; [contradiction | exact H].
Qed.

(** ** [boot_image_validate] *)

(** C1, counterexample.  The header carries the encryption flag and no key
    is configured, yet [boot_image_validate] returns [FIH_SUCCESS]: the
    image was decrypted in place and the validator accepts the header with
    the flag cleared. *)
Lemma encrypted_header_can_pass :
  IS_ENCRYPTED encrypted_hdr = true /\
  fst (fst (board_validate 0x8000 encrypted_hdr (reset decrypted_board)))
  = FIH_SUCCESS.
Proof. split; reflexivity. Qed.

Lemma encrypted_header_result_is_validators_witness :
  IS_ENCRYPTED encrypted_hdr = true /\
  bootutil_img_validate
    (with_flags encrypted_hdr
       (clear_flags (ih_flags encrypted_hdr) ENCRYPTIONFLAGS))
    0x8000 (world (reset decrypted_board))
  = (0x1AAAAAAA, decrypted_board) /\
  (fst (fst (boot_image_validate 0x8000 encrypted_hdr (reset decrypted_board)))
   = FIH_SUCCESS <-> 0x1AAAAAAA = FIH_SUCCESS).
Proof.
  split; [reflexivity |]. split; [reflexivity |].
  apply (encrypted_header_result_is_validators
           0x8000 encrypted_hdr (reset decrypted_board) 0x1AAAAAAA
           decrypted_board); reflexivity.
Defined.

(** ** [boot_image_validate_once] *)

Lemma trusted_record_skips_validation_witness :
  boot_read_swap_state 0x8000 swap_state_zero (world (reset trusted_board))
  = ((0, mk_boot_swap_state 1 1), trusted_board) /\
  fst (fst (boot_image_validate_once 0x8000 hdr_zero (reset trusted_board)))
  = FIH_SUCCESS.
Proof.
  split; [reflexivity |].
  apply (trusted_record_skips_validation
           0x8000 hdr_zero (reset trusted_board) (mk_boot_swap_state 1 1)
           trusted_board); reflexivity.
Defined.

Lemma read_error_rejects_without_validation_witness :
  boot_read_swap_state 0x8000 swap_state_zero
    (world (reset (board_with_read_rc trusted_board (-5))))
  = ((-5, swap_state_zero), board_with_read_rc trusted_board (-5)) /\
  fst (fst (boot_image_validate_once 0x8000 hdr_zero
              (reset (board_with_read_rc trusted_board (-5)))))
  = FIH_FAILURE.
Proof.
  split; [reflexivity |].
  apply (read_error_rejects_without_validation
           0x8000 hdr_zero (reset (board_with_read_rc trusted_board (-5)))
           (-5) swap_state_zero (board_with_read_rc trusted_board (-5)));
    [reflexivity | discriminate].
Defined.

Lemma validated_writes_magic_then_image_ok_witness :
  boot_read_swap_state 0x8000 swap_state_zero (world (reset fresh_board))
  = ((0, mk_boot_swap_state 3 3), fresh_board) /\
  unverified (mk_boot_swap_state 3 3) /\
  bootutil_img_validate (header_as_validated hdr_zero) 0x8000 fresh_board
  = (FIH_SUCCESS, fresh_board) /\
  magic (mk_boot_swap_state 3 3) <> BOOT_MAGIC_GOOD /\
  boot_write_magic 0x8000 fresh_board
  = (0, board_with_trust fresh_board (mk_boot_swap_state 1 3)) /\
  boot_write_image_ok 0x8000
    (board_with_trust fresh_board (mk_boot_swap_state 1 3))
  = (0, board_with_trust fresh_board (mk_boot_swap_state 1 1)) /\
  fst (fst (boot_image_validate_once 0x8000 hdr_zero (reset fresh_board)))
  = FIH_SUCCESS /\
  bd_trust (world (snd (boot_image_validate_once 0x8000 hdr_zero
                          (reset fresh_board))))
  = mk_boot_swap_state 1 1 /\
  trace (snd (boot_image_validate_once 0x8000 hdr_zero (reset fresh_board)))
  = [EvReadSwapState 0x8000 0 (mk_boot_swap_state 3 3);
     EvImgValidate hdr_zero 0x8000 FIH_SUCCESS;
     EvWriteMagic 0x8000 0; EvWriteImageOk 0x8000 0].
Proof.
  assert (Hun : unverified (mk_boot_swap_state 3 3)) by (left; discriminate).
  assert (Hne : magic (mk_boot_swap_state 3 3) <> BOOT_MAGIC_GOOD)
    by discriminate.
  split; [reflexivity |]. split; [exact Hun |]. split; [reflexivity |].
  split; [exact Hne |]. split; [reflexivity |]. split; [reflexivity |].
  destruct (validated_writes_magic_then_image_ok
              0x8000 hdr_zero (reset fresh_board) (mk_boot_swap_state 3 3)
              fresh_board fresh_board) as [Hmagic _];
    [reflexivity | exact Hun | reflexivity |].
  destruct (Hmagic Hne 0 (board_with_trust fresh_board (mk_boot_swap_state 1 3)))
    as [_ Hok]; [reflexivity |].
  rewrite (Hok eq_refl 0
             (board_with_trust fresh_board (mk_boot_swap_state 1 1)) eq_refl).
  repeat split.
Defined.

Lemma failed_validation_leaves_trust_record_witness :
  trust_store_contract board_stored /\
  fst (fst (boot_image_validate_once 0x8000 hdr_zero (reset tampered_board)))
  = FIH_FAILURE /\
  count is_trust_write
    (since (reset tampered_board)
       (snd (boot_image_validate_once 0x8000 hdr_zero (reset tampered_board))))
  = 0%nat.
Proof.
  split; [exact board_store_contract |].
  destruct (failed_validation_leaves_trust_record
              board_stored 0x8000 hdr_zero (reset tampered_board)
              board_store_contract) as [H _].
  destruct (H hdr_zero 0x8000 0x15555555) as (Hr & Hc & _).
  - right; left; reflexivity.
  - discriminate.
  - split; assumption.
Defined.

Lemma partial_record_is_completed_witness :
  trust_store_contract board_stored /\
  boot_read_swap_state 0x8000 swap_state_zero (world (reset partial_board))
  = ((0, mk_boot_swap_state 1 3), partial_board) /\
  bootutil_img_validate (header_as_validated hdr_zero) 0x8000 partial_board
  = (FIH_SUCCESS, partial_board) /\
  boot_write_image_ok 0x8000 partial_board
  = (0, board_with_trust partial_board (mk_boot_swap_state 1 1)) /\
  fst (fst (boot_image_validate_once 0x8000 hdr_zero (reset partial_board)))
  = FIH_SUCCESS /\
  bd_trust (world (snd (boot_image_validate_once 0x8000 hdr_zero
                          (reset partial_board))))
  = mk_boot_swap_state 1 1 /\
  trace (snd (boot_image_validate_once 0x8000 hdr_zero (reset partial_board)))
  = [EvReadSwapState 0x8000 0 (mk_boot_swap_state 1 3);
     EvImgValidate hdr_zero 0x8000 FIH_SUCCESS; EvWriteImageOk 0x8000 0].
Proof.
  split; [exact board_store_contract |]. split; [reflexivity |].
  split; [reflexivity |]. split; [reflexivity |].
  destruct (partial_record_is_completed
              board_stored 0x8000 hdr_zero (reset partial_board)
              (mk_boot_swap_state 1 3) partial_board FIH_SUCCESS partial_board
              board_store_contract) as [_ Hok];
    [reflexivity | reflexivity | discriminate | reflexivity |].
  destruct (Hok eq_refl 0
              (board_with_trust partial_board (mk_boot_swap_state 1 1)) eq_refl)
    as [Hrun _].
  rewrite Hrun. repeat split.
Defined.

(** ** [boot_go] *)

(** First boot of a fresh region in validate-once mode: the validator is
    called once, magic and [image_ok] are written, the response carries the
    region's device id and offset, and the region is closed. *)
Example first_boot_validates_and_records :
  let r := board_boot_go cfg_validate_once rsp_blank (reset fresh_board) in
  fst r = (Returned FIH_SUCCESS, mk_boot_rsp PtrStaticHdr 3 0xC000) /\
  trace (snd r) =
    [EvFlashAreaOpen 1 0; EvLoadHeader 0x8000 0;
     EvReadSwapState 0x8000 0 (mk_boot_swap_state 3 3);
     EvImgValidate hdr_zero 0x8000 FIH_SUCCESS;
     EvWriteMagic 0x8000 0; EvWriteImageOk 0x8000 0;
     EvFlashAreaClose 0x8000] /\
  bd_trust (world (snd r)) = mk_boot_swap_state 1 1.
Proof. repeat split. Qed.

(** The next boot of the same region: no validator call. *)
Example second_boot_skips_validation :
  let r := board_boot_go cfg_validate_once rsp_blank (reset trusted_board) in
  fst r = (Returned FIH_SUCCESS, mk_boot_rsp PtrStaticHdr 3 0xC000) /\
  trace (snd r) =
    [EvFlashAreaOpen 1 0; EvLoadHeader 0x8000 0;
     EvReadSwapState 0x8000 0 (mk_boot_swap_state 1 1);
     EvFlashAreaClose 0x8000].
Proof. repeat split. Qed.

(** A corrupted image in always-validate mode: failure, response untouched,
    region closed. *)
Example tampered_image_is_rejected :
  let r := board_boot_go cfg_validate rsp_blank (reset tampered_board) in
  fst r = (Returned FIH_FAILURE, rsp_blank) /\
  trace (snd r) =
    [EvFlashAreaOpen 1 0; EvLoadHeader 0x8000 0;
     EvImgValidate hdr_zero 0x8000 FIH_FAILURE; EvFlashAreaClose 0x8000].
Proof. repeat split. Qed.

(** A header that cannot be read: validation is never reached, the region
    is closed, failure. *)
Example unreadable_header_is_rejected :
  let r := board_boot_go cfg_validate rsp_blank
             (reset (board_with_load_rc fresh_board (-1))) in
  fst r = (Returned FIH_FAILURE, rsp_blank) /\
  trace (snd r) =
    [EvFlashAreaOpen 1 0; EvLoadHeader 0x8000 (-1); EvFlashAreaClose 0x8000].
Proof. repeat split. Qed.

(** C2, the failing run.  With measured boot configured and
    [boot_save_boot_status] returning -1 after a successful validation,
    [boot_go] returns -1 through the [return rc] of line 162 and the region
    opened at line 121 is never closed. *)
Lemma evidence_failure_leaks_region :
  let r := board_boot_go cfg_measured rsp_blank
             (reset (board_with_status_rc fresh_board (-1))) in
  fst (fst r) = Returned (-1) /\
  trace (snd r) =
    [EvFlashAreaOpen 1 0; EvLoadHeader 0x8000 0; EvLoadImageToSram 0;
     EvImgValidate hdr_zero 0x8000 FIH_SUCCESS; EvSaveBootStatus (-1)] /\
  count is_close (trace (snd r)) = 0%nat.
Proof. repeat split. Qed.





Lemma evidence_failure_keeps_trust_decision_witness :
  first_evidence_failure
    (since (reset (board_with_status_rc fresh_board (-1)))
       (snd (boot_go cfg_measured rsp_blank
               (reset (board_with_status_rc fresh_board (-1))))))
  = Some (-1, []) /\
  fst (fst (boot_go cfg_measured rsp_blank
              (reset (board_with_status_rc fresh_board (-1)))))
  = Returned (-1).
Proof.
  split; [reflexivity |].
  apply (evidence_failure_keeps_trust_decision
           cfg_measured rsp_blank
           (reset (board_with_status_rc fresh_board (-1))) (-1) []).
  reflexivity.
Defined.

End ReferenceRuns.

(** * Further runs on the reference platform *)

Section FurtherRuns.

#[local] Existing Instance mcuboot_headers.
#[local] Existing Instance board_collaborators.

Lemma validate_touches_only_encryption_bits_witness :
  0 <= ih_flags (mk_image_header 0x104 [7]) < 2 ^ 32 /\
  ih_rest (snd (fst (boot_image_validate 0x8000 (mk_image_header 0x104 [7])
                       (reset fresh_board)))) = [7] /\
  ih_flags (snd (fst (boot_image_validate 0x8000 (mk_image_header 0x104 [7])
                        (reset fresh_board)))) = 0x100.
Proof.
  assert (Hr : 0 <= ih_flags (mk_image_header 0x104 [7]) < 2 ^ 32)
    by (cbn; lia).
  split; [exact Hr |]. split.
  - apply (validate_touches_only_encryption_bits
             0x8000 (mk_image_header 0x104 [7]) (reset fresh_board) Hr).
  - vm_compute; reflexivity.
Defined.

Lemma validate_once_succeeds_iff_no_call_failed_witness :
  FIH_FAILURE <> FIH_SUCCESS /\
  (fst (fst (boot_image_validate_once 0x8000 hdr_zero (reset fresh_board)))
   = FIH_SUCCESS <->
   absent failed_call
     (since (reset fresh_board)
        (snd (boot_image_validate_once 0x8000 hdr_zero (reset fresh_board))))).
Proof.
  assert (Hne : FIH_FAILURE <> FIH_SUCCESS) by discriminate.
  split; [exact Hne |].
  apply (validate_once_succeeds_iff_no_call_failed
           0x8000 hdr_zero (reset fresh_board) Hne).
Defined.

Lemma validate_once_success_history_witness :
  FIH_FAILURE <> FIH_SUCCESS /\
  fst (fst (boot_image_validate_once 0x8000 hdr_zero (reset fresh_board)))
  = FIH_SUCCESS /\
  ((exists st,
       since (reset fresh_board)
         (snd (boot_image_validate_once 0x8000 hdr_zero (reset fresh_board)))
       = [EvReadSwapState 0x8000 0 st] /\
       magic st = BOOT_MAGIC_GOOD /\ image_ok st = BOOT_FLAG_SET)
   \/
   (exists st,
       unverified st /\
       since (reset fresh_board)
         (snd (boot_image_validate_once 0x8000 hdr_zero (reset fresh_board)))
       = [EvReadSwapState 0x8000 0 st;
          EvImgValidate (header_as_validated hdr_zero) 0x8000 FIH_SUCCESS]
         ++ magic_write 0x8000 st ++ [EvWriteImageOk 0x8000 0])).
Proof.
  assert (Hne : FIH_FAILURE <> FIH_SUCCESS) by discriminate.
  split; [exact Hne |]. split; [vm_compute; reflexivity |].
  apply (validate_once_success_history
           0x8000 hdr_zero (reset fresh_board) Hne).
  vm_compute; reflexivity.
Defined.

Lemma header_load_failure_ends_attempt_witness :
  In (EvLoadHeader 0x8000 (-1))
     (since (reset (board_with_load_rc fresh_board (-1)))
        (snd (boot_go cfg_measured rsp_blank
                (reset (board_with_load_rc fresh_board (-1)))))) /\
  fst (boot_go cfg_measured rsp_blank
         (reset (board_with_load_rc fresh_board (-1))))
  = (Returned FIH_FAILURE, rsp_blank).
Proof.
  assert (HIn : In (EvLoadHeader 0x8000 (-1))
     (since (reset (board_with_load_rc fresh_board (-1)))
        (snd (boot_go cfg_measured rsp_blank
                (reset (board_with_load_rc fresh_board (-1)))))))
    by (vm_compute; auto 12).
  split; [exact HIn |].
  apply (header_load_failure_ends_attempt
           cfg_measured rsp_blank (reset (board_with_load_rc fresh_board (-1)))
           0x8000 (-1) HIn).
  discriminate.
Defined.

Lemma staging_failure_ends_attempt_witness :
  In (EvLoadImageToSram (-1))
     (since (reset (board_with_sram_rc fresh_board (-1)))
        (snd (boot_go cfg_measured rsp_blank
                (reset (board_with_sram_rc fresh_board (-1)))))) /\
  fst (boot_go cfg_measured rsp_blank
         (reset (board_with_sram_rc fresh_board (-1))))
  = (Returned FIH_FAILURE, rsp_blank).
Proof.
  assert (HIn : In (EvLoadImageToSram (-1))
     (since (reset (board_with_sram_rc fresh_board (-1)))
        (snd (boot_go cfg_measured rsp_blank
                (reset (board_with_sram_rc fresh_board (-1)))))))
    by (vm_compute; auto 12).
  split; [exact HIn |].
  apply (staging_failure_ends_attempt
           cfg_measured rsp_blank (reset (board_with_sram_rc fresh_board (-1)))
           (-1) HIn).
  discriminate.
Defined.

Lemma always_validate_returns_validator_result_witness :
  MCUBOOT_VALIDATE_PRIMARY_SLOT cfg_measured = true /\
  In (EvImgValidate hdr_zero 0x8000 7)
     (since (reset (board_with_verdict fresh_board (fun _ => 7)))
        (snd (boot_go cfg_measured rsp_blank
                (reset (board_with_verdict fresh_board (fun _ => 7)))))) /\
  fst (boot_go cfg_measured rsp_blank
         (reset (board_with_verdict fresh_board (fun _ => 7))))
  = (Returned 7, rsp_blank).
Proof.
  assert (HIn : In (EvImgValidate hdr_zero 0x8000 7)
     (since (reset (board_with_verdict fresh_board (fun _ => 7)))
        (snd (boot_go cfg_measured rsp_blank
                (reset (board_with_verdict fresh_board (fun _ => 7)))))))
    by (vm_compute; auto 12).
  split; [vm_compute; reflexivity |]. split; [exact HIn |].
  apply (always_validate_returns_validator_result
           cfg_measured rsp_blank
           (reset (board_with_verdict fresh_board (fun _ => 7)))
           hdr_zero 0x8000 7 eq_refl HIn).
  discriminate.
Defined.

Lemma without_always_validate_returns_sentinel_witness :
  MCUBOOT_VALIDATE_PRIMARY_SLOT cfg_validate_once = false /\
  fst (fst (boot_go cfg_validate_once rsp_blank (reset tampered_board)))
  = Returned 0x15555555 /\
  (0x15555555 = FIH_SUCCESS \/ 0x15555555 = FIH_FAILURE).
Proof.
  split; [vm_compute; reflexivity |]. split; [vm_compute; reflexivity |].
  apply (without_always_validate_returns_sentinel
           cfg_validate_once rsp_blank (reset tampered_board) 0x15555555);
    vm_compute; reflexivity.
Defined.

Lemma always_validate_ignores_trust_store_witness :
  MCUBOOT_VALIDATE_PRIMARY_SLOT cfg_measured = true /\
  absent is_trust_access
    (since (reset fresh_board)
       (snd (boot_go cfg_measured rsp_blank (reset fresh_board)))).
Proof.
  split; [vm_compute; reflexivity |].
  apply (always_validate_ignores_trust_store
           cfg_measured rsp_blank (reset fresh_board)).
  vm_compute; reflexivity.
Defined.

Lemma no_validation_mode_calls_no_validator_witness :
  MCUBOOT_VALIDATE_PRIMARY_SLOT cfg_skip = false /\
  MCUBOOT_VALIDATE_PRIMARY_SLOT_ONCE cfg_skip = false /\
  absent is_img_validate
    (since (reset tampered_board)
       (snd (boot_go cfg_skip rsp_blank (reset tampered_board)))).
Proof.
  split; [vm_compute; reflexivity |]. split; [vm_compute; reflexivity |].
  apply (no_validation_mode_calls_no_validator
           cfg_skip rsp_blank (reset tampered_board)); vm_compute; reflexivity.
Defined.

Lemma always_validate_success_was_validated_witness :
  MCUBOOT_VALIDATE_PRIMARY_SLOT cfg_validate = true /\
  FIH_FAILURE <> FIH_SUCCESS /\
  fst (fst (boot_go cfg_validate rsp_blank (reset fresh_board)))
  = Returned FIH_SUCCESS /\
  exists h fa,
    In (EvImgValidate h fa FIH_SUCCESS)
       (since (reset fresh_board)
          (snd (boot_go cfg_validate rsp_blank (reset fresh_board)))).
Proof.
  assert (Hne : FIH_FAILURE <> FIH_SUCCESS) by discriminate.
  split; [vm_compute; reflexivity |]. split; [exact Hne |]. split; [vm_compute; reflexivity |].
  apply (always_validate_success_was_validated
           cfg_validate rsp_blank (reset fresh_board) eq_refl Hne).
  vm_compute; reflexivity.
Defined.

Lemma validate_once_success_was_trusted_or_validated_witness :
  MCUBOOT_VALIDATE_PRIMARY_SLOT cfg_validate_once = false /\
  MCUBOOT_VALIDATE_PRIMARY_SLOT_ONCE cfg_validate_once = true /\
  FIH_FAILURE <> FIH_SUCCESS /\
  fst (fst (boot_go cfg_validate_once rsp_blank (reset trusted_board)))
  = Returned FIH_SUCCESS /\
  ((exists fa st,
       In (EvReadSwapState fa 0 st)
          (since (reset trusted_board)
             (snd (boot_go cfg_validate_once rsp_blank
                     (reset trusted_board)))) /\
       magic st = BOOT_MAGIC_GOOD /\ image_ok st = BOOT_FLAG_SET /\
       absent is_img_validate
         (since (reset trusted_board)
            (snd (boot_go cfg_validate_once rsp_blank
                    (reset trusted_board)))))
   \/
   (exists h fa,
       In (EvImgValidate h fa FIH_SUCCESS)
          (since (reset trusted_board)
             (snd (boot_go cfg_validate_once rsp_blank
                     (reset trusted_board)))) /\
       In (EvWriteImageOk fa 0)
          (since (reset trusted_board)
             (snd (boot_go cfg_validate_once rsp_blank
                     (reset trusted_board)))))).
Proof.
  assert (Hne : FIH_FAILURE <> FIH_SUCCESS) by discriminate.
  split; [vm_compute; reflexivity |]. split; [vm_compute; reflexivity |]. split; [exact Hne |].
  split; [vm_compute; reflexivity |].
  apply (validate_once_success_was_trusted_or_validated
           cfg_validate_once rsp_blank (reset trusted_board)
           (eq_refl false) (eq_refl true) Hne).
  vm_compute; reflexivity.
Defined.

Lemma boot_go_succeeds_when_no_call_failed_witness :
  absent failed_call
    (since (reset fresh_board)
       (snd (boot_go cfg_measured rsp_blank (reset fresh_board)))) /\
  fst (boot_go cfg_measured rsp_blank (reset fresh_board))
  = (Returned FIH_SUCCESS, mk_boot_rsp PtrStaticHdr 3 0xC000).
Proof.
  assert (Hab : absent failed_call
    (since (reset fresh_board)
       (snd (boot_go cfg_measured rsp_blank (reset fresh_board)))))
    by (vm_compute; reflexivity).
  split; [exact Hab |].
  destruct (boot_go_succeeds_when_no_call_failed
              cfg_measured rsp_blank (reset fresh_board) Hab)
    as (Hs & (w & _ & Hr) & _).
  rewrite (surjective_pairing
             (fst (boot_go cfg_measured rsp_blank (reset fresh_board)))).
  rewrite Hs, Hr. reflexivity.
Defined.

Lemma evidence_only_after_success_witness :
  FIH_FAILURE <> FIH_SUCCESS /\
  In (EvSaveBootStatus (-1))
     (since (reset (board_with_status_rc fresh_board (-1)))
        (snd (boot_go cfg_measured rsp_blank
                (reset (board_with_status_rc fresh_board (-1)))))) /\
  is_evidence (EvSaveBootStatus (-1)) = true /\
  failed_call (EvSaveBootStatus (-1)) = true /\
  (is_evidence (EvSaveBootStatus (-1)) = true \/
   (is_open (EvSaveBootStatus (-1)) = true /\ NDEBUG cfg_measured = true)).
Proof.
  assert (Hne : FIH_FAILURE <> FIH_SUCCESS) by discriminate.
  assert (HIn : In (EvSaveBootStatus (-1))
     (since (reset (board_with_status_rc fresh_board (-1)))
        (snd (boot_go cfg_measured rsp_blank
                (reset (board_with_status_rc fresh_board (-1)))))))
    by (vm_compute; auto 12).
  split; [exact Hne |]. split; [exact HIn |]. split; [vm_compute; reflexivity |].
  split; [vm_compute; reflexivity |].
  apply (evidence_only_after_success
           cfg_measured rsp_blank
           (reset (board_with_status_rc fresh_board (-1)))
           (EvSaveBootStatus (-1)) (EvSaveBootStatus (-1)) Hne HIn eq_refl HIn).
  vm_compute; reflexivity.
Defined.

Lemma boot_go_close_count_witness :
  fst (fst (boot_go cfg_validate rsp_blank (reset tampered_board)))
  = Returned 0x15555555 /\
  (first_evidence_failure
     (since (reset tampered_board)
        (snd (boot_go cfg_validate rsp_blank (reset tampered_board)))) = None ->
   count is_close
     (since (reset tampered_board)
        (snd (boot_go cfg_validate rsp_blank (reset tampered_board))))
   = 1%nat).
Proof.
  split; [vm_compute; reflexivity |].
  apply (boot_go_close_count
           cfg_validate rsp_blank (reset tampered_board) 0x15555555).
  vm_compute; reflexivity.
Defined.

End FurtherRuns.
